(** * Speed estimation from two photographs: a shallow embedding of [main.py]

    The program photographs the ground twice, matches ORB features between
    the two pictures, averages the pixel displacement of the matched features
    and converts it to a speed with the ground sample distance and the time
    between the two captures.

    Python [float]s are IEEE 754 binary64 numbers; they are modelled by
    [spec_float] at precision 53 and maximal exponent 1024, so every
    definition below computes.  Exceptions are modelled by a [result] type.
    Calls into the camera, the EXIF reader, the clock and OpenCV are
    collaborators of the program: they are fields of the record [World], or,
    where a property of the program depends on what they compute,
    executable models of their documented behaviour. *)

From Stdlib Require Import ZArith List Bool Lia String Ascii DecimalString.
From Stdlib Require Import Strings.Byte.
From Stdlib Require DecimalPos DecimalZ.
From Stdlib Require Import Permutation Sorted.
From Stdlib Require Import SpecFloat.
Import ListNotations.

Local Open Scope Z_scope.

(** ** Exceptions and results *)

Inductive exn : Type :=
| ValueError (msg : string)
| IndexError (msg : string)
| ZeroDivisionError (msg : string)
| OSError (msg : string)
| Cv2Error (msg : string).

Inductive result (A : Type) : Type :=
| Ok (a : A)
| Raise (e : exn).

Arguments Ok {A} a.
Arguments Raise {A} e.

Definition bind {A B : Type} (r : result A) (k : A -> result B) : result B :=
  match r with
  | Ok a => k a
  | Raise e => Raise e
  end.

Notation "x <- r ;; k" := (bind r (fun x => k))
  (at level 61, r at next level, right associativity).
Notation "' p <- r ;; k" := (bind r (fun x => let p := x in k))
  (at level 61, p pattern, r at next level, right associativity).

Definition raises {A : Type} (r : result A) : Prop :=
  exists e, r = Raise e.

Definition returns {A : Type} (r : result A) : Prop :=
  exists a, r = Ok a.

(** ** Python floats: binary64 *)

Module Float.

Definition float : Type := spec_float.

Definition prec : Z := 53.
Definition emax : Z := 1024.

Definition add : float -> float -> float := SFadd prec emax.
Definition sub : float -> float -> float := SFsub prec emax.
Definition mul : float -> float -> float := SFmul prec emax.
Definition div : float -> float -> float := SFdiv prec emax.
Definition abs : float -> float := SFabs.
Definition eqb : float -> float -> bool := SFeqb.
Definition ltb : float -> float -> bool := SFltb.

Definition zero : float := S754_zero false.

(** [float(n)] for an integer [n], rounded to nearest even. *)
Definition of_Z (n : Z) : float := binary_normalize prec emax n 0 false.

(** A finite quotient [n / d] of two integers with [0 < d], rounded once,
    as Python's true division of integers does. *)
Definition of_ratio (n : Z) (d : positive) : float :=
  match n with
  | Z0 => S754_zero false
  | Zpos p => div (S754_finite false p 0) (S754_finite false d 0)
  | Zneg p => div (S754_finite true p 0) (S754_finite false d 0)
  end.

(** The integer [k] with [|x| = k * 2^e], for a finite [x] whose exponent
    is at least [e]; [0] for a zero. *)
Definition mantissa_at (x : float) (e : Z) : Z :=
  match x with
  | S754_finite _ m ex => Z.shiftl (Zpos m) (ex - e)
  | _ => 0
  end.

(** The exponent of a finite [x], and [other] for a zero. *)
Definition exponent_of (x : float) (other : Z) : Z :=
  match x with
  | S754_finite _ _ ex => ex
  | _ => other
  end.

(** [math.hypot(x, y)]: the Euclidean norm, computed without intermediate
    overflow.  An infinite argument gives [inf] even if the other one is
    a NaN; otherwise a NaN gives a NaN.  For finite arguments the model
    is the exact sum of squares rounded once by the square root. *)
Definition hypot (x y : float) : float :=
  match x, y with
  | S754_infinity _, _ | _, S754_infinity _ => S754_infinity false
  | S754_nan, _ | _, S754_nan => S754_nan
  | _, _ =>
      let e := Z.min (exponent_of x (exponent_of y 0))
                     (exponent_of y (exponent_of x 0)) in
      let a := mantissa_at x e in
      let b := mantissa_at y e in
      match a * a + b * b with
      | Zpos s => SFsqrt prec emax (S754_finite false s (2 * e))
      | _ => S754_zero false
      end
  end.

(** The integer nearest to [n / d], for [0 < d]; a tie goes to the even
    one. *)
Definition round_half_even (n : Z) (d : Z) : Z :=
  let q := n / d in
  let r := n mod d in
  match 2 * r ?= d with
  | Lt => q
  | Gt => q + 1
  | Eq => if Z.even q then q else q + 1
  end.

(** [round(x, ndigits)] for a float [x] and [0 <= ndigits]: the decimal
    with [ndigits] fractional digits nearest to the exact value of [x]
    (ties to the even digit), converted back to the nearest float.
    Infinities and NaN round to themselves. *)
Definition round (x : float) (ndigits : Z) : float :=
  match x with
  | S754_finite s m e =>
      let scale := 10 ^ ndigits in
      let n :=
        if 0 <=? e then Zpos m * 2 ^ e * scale
        else round_half_even (Zpos m * scale) (2 ^ (- e)) in
      match n with
      | Zpos p => div (S754_finite s p 0) (S754_finite false (Z.to_pos scale) 0)
      | _ => S754_zero s
      end
  | _ => x
  end.

(** A float that is neither a zero nor a NaN. *)
Definition is_nonzero_number (x : float) : bool :=
  match x with
  | S754_finite _ _ _ | S754_infinity _ => true
  | _ => false
  end.

End Float.

Import Float.

(** The literal [100000.0] of the program, and small numbers for the
    examples. *)
Definition f1 : float := of_Z 1.
Definition f2 : float := of_Z 2.
Definition f3 : float := of_Z 3.
Definition f4 : float := of_Z 4.
Definition f5 : float := of_Z 5.
Definition f10 : float := of_Z 10.
Definition f100000 : float := of_Z 100000.

(** ** Speed from displacement, ground sample distance and elapsed time *)

Definition calculate_speed_in_kmps (feature_distance GSD time_difference : float)
  : result float :=
  if eqb time_difference zero then
    Raise (ValueError "Time difference is zero; cannot compute speed.")
  else
    let distance_km := div (mul feature_distance GSD) f100000 in
    let speed := div distance_km time_difference in
    Ok speed.

(** ** Capture times

    [datetime] values as Python holds them, with the proleptic Gregorian
    ordinal of the standard library ([toordinal]); the difference of two
    of them is a normalised [timedelta]. *)

Record datetime : Type := mk_datetime {
  year : Z;
  month : Z;
  day : Z;
  hour : Z;
  minute : Z;
  second : Z;
  microsecond : Z
}.

Record timedelta : Type := mk_timedelta {
  days : Z;
  seconds : Z;
  microseconds : Z
}.

Definition is_leap (y : Z) : bool :=
  (y mod 4 =? 0) && (negb (y mod 100 =? 0) || (y mod 400 =? 0)).

Definition days_before_year (y : Z) : Z :=
  let p := y - 1 in
  p * 365 + p / 4 - p / 100 + p / 400.

Definition days_in_month (y m : Z) : Z :=
  if m =? 2 then (if is_leap y then 29 else 28)
  else if (m =? 4) || (m =? 6) || (m =? 9) || (m =? 11) then 30
  else 31.

Definition days_before_month (y m : Z) : Z :=
  fold_right (fun k acc => days_in_month y (Z.of_nat k) + acc) 0
             (seq 1 (Z.to_nat (m - 1))).

Definition toordinal (d : datetime) : Z :=
  days_before_year (year d) + days_before_month (year d) (month d) + day d.

Definition us_per_second : Z := 1000000.
Definition us_per_day : Z := 86400 * us_per_second.

(** [timedelta(days, seconds, microseconds)] normalises its arguments so
    that [0 <= seconds < 86400] and [0 <= microseconds < 1000000]. *)
Definition timedelta_new (d s us : Z) : timedelta :=
  let total := (d * 86400 + s) * us_per_second + us in
  let rest := total mod us_per_day in
  {| days := total / us_per_day;
     seconds := rest / us_per_second;
     microseconds := rest mod us_per_second |}.

Definition seconds_of_day (d : datetime) : Z :=
  second d + minute d * 60 + hour d * 3600.

(** [a - b] on datetimes. *)
Definition datetime_sub (a b : datetime) : timedelta :=
  timedelta_new (toordinal a - toordinal b)
                (seconds_of_day a - seconds_of_day b)
                (microsecond a - microsecond b).

Definition timedelta_us (t : timedelta) : Z :=
  (days t * 86400 + seconds t) * us_per_second + microseconds t.

(** [t.total_seconds()]: the microseconds divided by [10**6], one rounding. *)
Definition total_seconds (t : timedelta) : float :=
  of_ratio (timedelta_us t) 1000000.

(** Microseconds since the start of the calendar; [a < b + delta] on
    datetimes compares these. *)
Definition datetime_us (d : datetime) : Z :=
  (toordinal d * 86400 + seconds_of_day d) * us_per_second + microsecond d.

Definition before_deadline (now start : datetime) (window : timedelta) : bool :=
  datetime_us now <? datetime_us start + timedelta_us window.

(** ** OpenCV data *)

(** A grayscale image: rows of pixels. *)
Definition ndarray : Type := list (list byte).

(** A key point; only its position [pt] is read by the program. *)
Record KeyPoint : Type := mk_KeyPoint { pt : float * float }.

(** ORB descriptors: one row of bytes per key point. *)
Definition descriptor : Type := list byte.
Definition descriptors : Type := list descriptor.

(** [cv2.DMatch].  OpenCV stores [distance] in a float field; under
    [NORM_HAMMING] it is a count of differing bits, kept here as the
    integer it is. *)
Record DMatch : Type := mk_DMatch {
  queryIdx : Z;
  trainIdx : Z;
  distance : Z
}.

(** ** The collaborators

    What the camera, the file system, the EXIF reader, the clock and the
    feature detector answer.  [exif_datetime_original] stands for opening
    the file, reading its EXIF block and looking [datetime_original] up
    ([None] when the tag is missing); [imread] is [cv2.imread], which
    answers [None] for a file it cannot decode; [now n] is the answer of
    the [n]-th call of [datetime.now()]. *)

Record World : Type := mk_World {
  take_photo : string -> result string;
  exif_datetime_original : string -> result (option string);
  strptime : string -> result datetime;
  imread : string -> option ndarray;
  detectAndCompute : Z -> ndarray -> result (list KeyPoint * option descriptors);
  now : nat -> datetime
}.

(** ** Time stamps of the pictures *)

Definition get_time (w : World) (image : string) : result datetime :=
  time_str <- exif_datetime_original w image ;;
  match time_str with
  | None | Some EmptyString =>
      Raise (ValueError
               ("EXIF data does not contain 'datetime_original' for " ++ image))
  | Some s => strptime w s
  end.

Definition get_time_difference (w : World) (image_1 image_2 : string)
  : result float :=
  time_1 <- get_time w image_1 ;;
  time_2 <- get_time w image_2 ;;
  let time_difference := datetime_sub time_2 time_1 in
  Ok (abs (total_seconds time_difference)).

(** ** Loading the pictures and extracting features *)

Definition convert_to_cv (w : World) (image_1 image_2 : string)
  : result (ndarray * ndarray) :=
  let image_1_cv := imread w image_1 in
  let image_2_cv := imread w image_2 in
  match image_1_cv, image_2_cv with
  | None, _ => Raise (ValueError ("Failed to read image: " ++ image_1))
  | Some _, None => Raise (ValueError ("Failed to read image: " ++ image_2))
  | Some a, Some b => Ok (a, b)
  end.

Definition calculate_features (w : World) (image_1 image_2 : ndarray)
           (feature_number : Z)
  : result (list KeyPoint * list KeyPoint * option descriptors * option descriptors) :=
  '(keypoints_1, descriptors_1) <- detectAndCompute w feature_number image_1 ;;
  '(keypoints_2, descriptors_2) <- detectAndCompute w feature_number image_2 ;;
  Ok (keypoints_1, keypoints_2, descriptors_1, descriptors_2).

(** ** Matching descriptors

    [cv2.BFMatcher(cv2.NORM_HAMMING, crossCheck=True).match(q, t)] is
    OpenCV's, not this program's; the model follows its documentation: the
    distance of two descriptors is the number of bits in which they differ,
    the nearest neighbour of a descriptor is the first one at the least
    distance, and with [crossCheck] the pair [(i, j)] is reported only when
    [j] is the nearest train descriptor of query [i] and [i] the nearest
    query descriptor of train [j].  Matches come in the order of the query
    descriptors.  Without query descriptors there is nothing to report; with
    query descriptors and an empty train set the matcher's internal check
    on the number of neighbours fails. *)

Fixpoint popcount_pos (p : positive) : Z :=
  match p with
  | xH => 1
  | xO q => popcount_pos q
  | xI q => 1 + popcount_pos q
  end.

Definition popcount (n : N) : Z :=
  match n with
  | N0 => 0
  | Npos p => popcount_pos p
  end.

Fixpoint hamming (a b : descriptor) : Z :=
  match a, b with
  | x :: a', y :: b' => popcount (N.lxor (Byte.to_N x) (Byte.to_N y)) + hamming a' b'
  | _, _ => 0
  end.

(** The first index at the least distance, scanning from index [j] with the
    best candidate so far. *)
Fixpoint nearest_from (d : descriptor) (ts : descriptors) (j : Z)
         (best : option (Z * Z)) : option (Z * Z) :=
  match ts with
  | [] => best
  | t :: ts' =>
      let h := hamming d t in
      let best' :=
        match best with
        | None => Some (j, h)
        | Some (_, hb) => if h <? hb then Some (j, h) else best
        end in
      nearest_from d ts' (j + 1) best'
  end.

Definition nearest (d : descriptor) (ts : descriptors) : option (Z * Z) :=
  nearest_from d ts 0 None.

Definition cross_checked (qs ts : descriptors) (i : Z) (q : descriptor)
  : list DMatch :=
  match nearest q ts with
  | None => []
  | Some (j, h) =>
      match nth_error ts (Z.to_nat j) with
      | None => []
      | Some t =>
          match nearest t qs with
          | Some (i', _) =>
              if i' =? i then [ {| queryIdx := i; trainIdx := j; distance := h |} ]
              else []
          | None => []
          end
      end
  end.

Fixpoint cross_check_from (qs ts : descriptors) (i : Z) (rest : descriptors)
  : list DMatch :=
  match rest with
  | [] => []
  | q :: rest' => cross_checked qs ts i q ++ cross_check_from qs ts (i + 1) rest'
  end.

Definition bf_match (qs ts : descriptors) : result (list DMatch) :=
  match qs, ts with
  | [], _ => Ok []
  | _ :: _, [] => Raise (Cv2Error "K == 1 && update == 0 && mask.empty()")
  | _, _ => Ok (cross_check_from qs ts 0 qs)
  end.

(** [sorted(matches, key=lambda x: x.distance)]: a stable sort, so an
    element goes after the ones whose key is not larger. *)
Fixpoint insert_by_distance (m : DMatch) (l : list DMatch) : list DMatch :=
  match l with
  | [] => [m]
  | x :: l' =>
      if distance m <? distance x then m :: l
      else x :: insert_by_distance m l'
  end.

Definition sorted_by_distance (l : list DMatch) : list DMatch :=
  fold_right insert_by_distance [] l.

Definition calculate_matches (descriptors_1 descriptors_2 : option descriptors)
  : result (list DMatch) :=
  match descriptors_1, descriptors_2 with
  | Some d1, Some d2 =>
      matches <- bf_match d1 d2 ;;
      Ok (sorted_by_distance matches)
  | _, _ => Raise (ValueError "Descriptors cannot be None for matching.")
  end.

(** ** Coordinates of the matched key points *)

(** [l[i]] on a Python sequence: a negative index counts from the end. *)
Definition getitem {A : Type} (l : list A) (i : Z) : result A :=
  let n := Z.of_nat (List.length l) in
  let j := if i <? 0 then i + n else i in
  if (0 <=? j) && (j <? n) then
    match nth_error l (Z.to_nat j) with
    | Some a => Ok a
    | None => Raise (IndexError "tuple index out of range")
    end
  else Raise (IndexError "tuple index out of range").

Definition coord : Type := float * float.

(** The [try] block of one turn of the loop over the matches. *)
Definition resolve_match (keypoints_1 keypoints_2 : list KeyPoint) (m : DMatch)
           (coordinates_1 coordinates_2 : list coord)
  : result (list coord * list coord) :=
  let image_1_idx := queryIdx m in
  let image_2_idx := trainIdx m in
  k1 <- getitem keypoints_1 image_1_idx ;;
  k2 <- getitem keypoints_2 image_2_idx ;;
  Ok (coordinates_1 ++ [pt k1], coordinates_2 ++ [pt k2]).

Fixpoint matching_coordinates_loop (keypoints_1 keypoints_2 : list KeyPoint)
         (matches : list DMatch) (coordinates_1 coordinates_2 : list coord)
  : result (list coord * list coord) :=
  match matches with
  | [] => Ok (coordinates_1, coordinates_2)
  | m :: rest =>
      match resolve_match keypoints_1 keypoints_2 m coordinates_1 coordinates_2 with
      | Ok (c1, c2) =>
          matching_coordinates_loop keypoints_1 keypoints_2 rest c1 c2
      | Raise (IndexError _) =>
          matching_coordinates_loop keypoints_1 keypoints_2 rest
                                    coordinates_1 coordinates_2
      | Raise e => Raise e
      end
  end.

Definition find_matching_coordinates (keypoints_1 keypoints_2 : list KeyPoint)
           (matches : list DMatch) : result (list coord * list coord) :=
  matching_coordinates_loop keypoints_1 keypoints_2 matches [] [].

(** ** Mean displacement *)

(** [a / n] for a float [a] and an integer [n]: [n] is converted first. *)
Definition truediv_int (a : float) (n : Z) : result float :=
  let b := of_Z n in
  if eqb b zero then Raise (ZeroDivisionError "float division by zero")
  else Ok (div a b).

Definition is_empty {A : Type} (l : list A) : bool :=
  match l with [] => true | _ :: _ => false end.

Definition lengths_differ {A B : Type} (l1 : list A) (l2 : list B) : bool :=
  negb (Nat.eqb (List.length l1) (List.length l2)).

Definition pair_distance (p : coord * coord) : float :=
  let '((x1, y1), (x2, y2)) := p in
  hypot (sub x1 x2) (sub y1 y2).

Definition total_distance (coordinates_1 coordinates_2 : list coord) : float :=
  fold_left (fun total p => add total (pair_distance p))
            (combine coordinates_1 coordinates_2) zero.

Definition calculate_mean_distance (coordinates_1 coordinates_2 : list coord)
  : result float :=
  if is_empty coordinates_1 || is_empty coordinates_2
     || lengths_differ coordinates_1 coordinates_2
  then Ok zero
  else truediv_int (total_distance coordinates_1 coordinates_2)
                   (Z.of_nat (List.length coordinates_1)).

(** ** The sampling loop of [main] *)

(** The ground sample distance passed by [main], the literal [24451.525]. *)
Definition GSD : float := of_ratio 24451525 1000.

Definition image_name (i : Z) : string :=
  "image" ++ NilZero.string_of_int (Z.to_int i) ++ ".jpg".

(** What follows the two captures inside the [try] block. *)
Definition measure (w : World) (image_1 image_2 : string) : result float :=
  time_difference <- get_time_difference w image_1 image_2 ;;
  '(image_1_cv, image_2_cv) <- convert_to_cv w image_1 image_2 ;;
  '(keypoints_1, keypoints_2, descriptors_1, descriptors_2) <-
    calculate_features w image_1_cv image_2_cv 1000 ;;
  matches <- calculate_matches descriptors_1 descriptors_2 ;;
  '(coordinates_1, coordinates_2) <-
    find_matching_coordinates keypoints_1 keypoints_2 matches ;;
  average_feature_distance <-
    calculate_mean_distance coordinates_1 coordinates_2 ;;
  calculate_speed_in_kmps average_feature_distance GSD time_difference.

(** The [try] block: the picture counter [i] advances after each capture
    that succeeded, whatever happens later in the block. *)
Definition cycle_body (w : World) (i : Z) : Z * result float :=
  match take_photo w (image_name i) with
  | Raise e => (i, Raise e)
  | Ok image_1 =>
      let i := i + 1 in
      match take_photo w (image_name i) with
      | Raise e => (i, Raise e)
      | Ok image_2 =>
          let i := i + 1 in
          (i, measure w image_1 image_2)
      end
  end.

Record loop_state : Type := mk_loop_state {
  counter : Z;
  speeds : list float;
  now_time : datetime;
  clock : nat
}.

(** One turn of the [while] loop: the [try] block, the handler that only
    reports the error, and the [finally] block that reads the clock. *)
Definition iteration (w : World) (st : loop_state) : loop_state :=
  let '(i, outcome) := cycle_body w (counter st) in
  let speeds' :=
    match outcome with
    | Ok speed => (speeds st ++ [speed])%list
    | Raise _ => speeds st
    end in
  {| counter := i;
     speeds := speeds';
     now_time := now w (clock st);
     clock := S (clock st) |}.

Definition five_minutes : timedelta := timedelta_new 0 (5 * 60) 0.

Definition initial_state (w : World) : loop_state :=
  {| counter := 1; speeds := []; now_time := now w 1%nat; clock := 2%nat |}.

(** The loop runs until the clock passes the deadline; [fuel] bounds the
    number of turns, and [None] means the bound was too small. *)
Fixpoint sampling_loop (w : World) (start_time : datetime) (fuel : nat)
         (st : loop_state) : option loop_state :=
  if before_deadline (now_time st) start_time five_minutes then
    match fuel with
    | O => None
    | S fuel' => sampling_loop w start_time fuel' (iteration w st)
    end
  else Some st.

(** ** The session result *)

(** The values [average_speed] can hold: the integer [0] or a float. *)
Inductive number : Type :=
| Int (n : Z)
| Float (x : float).

(** [sum(speeds)]: the floats are added one by one from the left; the
    start value [0] becomes [0.0] at the first addition. *)
Definition sum (l : list float) : float := fold_left add l zero.

Definition average_speed (speeds : list float) : result number :=
  if negb (is_empty speeds) then
    q <- truediv_int (sum speeds) (Z.of_nat (List.length speeds)) ;;
    Ok (Float q)
  else Ok (Int 0).

(** [round(v, 5)]: an integer is its own rounding. *)
Definition round_number (v : number) (ndigits : Z) : number :=
  match v with
  | Int n => Int n
  | Float x => Float (round x ndigits)
  end.

Definition session_result (speeds : list float) : result number :=
  v <- average_speed speeds ;;
  Ok (round_number v 5).

Definition main (w : World) (fuel : nat) : option (result number) :=
  let start_time := now w 0%nat in
  match sampling_loop w start_time fuel (initial_state w) with
  | Some st => Some (session_result (speeds st))
  | None => None
  end.

(** ** A world to run the program in

    Two pictures nine seconds apart in which every feature moved by three
    pixels to the right and four down; the clock advances by one minute
    at every reading. *)

Definition demo_time (s : string) : result datetime :=
  if String.eqb s "2024:03:01 10:00:00" then Ok (mk_datetime 2024 3 1 10 0 0 0)
  else if String.eqb s "2024:03:01 10:00:09" then Ok (mk_datetime 2024 3 1 10 0 9 0)
  else Raise (ValueError "time data does not match format '%Y:%m:%d %H:%M:%S'").

Definition demo_features (img : ndarray)
  : result (list KeyPoint * option descriptors) :=
  match img with
  | [[x00%byte]] =>
      Ok ([mk_KeyPoint (zero, zero); mk_KeyPoint (f10, zero)],
          Some [[x0f%byte; x00%byte]; [xf0%byte; xff%byte]])
  | _ =>
      Ok ([mk_KeyPoint (f3, f4); mk_KeyPoint (of_Z 13, f4)],
          Some [[x0f%byte; x01%byte]; [xf0%byte; xfe%byte]])
  end.

Definition demo_world : World :=
  {| take_photo := fun name => Ok name;
     exif_datetime_original := fun image =>
       Ok (Some (if String.eqb image "image1.jpg"
                 then "2024:03:01 10:00:00"%string
                 else "2024:03:01 10:00:09"%string));
     strptime := demo_time;
     imread := fun image =>
       Some (if String.eqb image "image1.jpg"
             then [[x00%byte]] else [[x01%byte]]);
     detectAndCompute := fun _ img => demo_features img;
     now := fun n => mk_datetime 2024 3 1 10 (Z.of_nat n) 0 0 |}.

(** A camera that is not connected. *)
Definition blind_world : World :=
  {| take_photo := fun _ => Raise (OSError "camera not available");
     exif_datetime_original := exif_datetime_original demo_world;
     strptime := demo_time;
     imread := imread demo_world;
     detectAndCompute := detectAndCompute demo_world;
     now := now demo_world |}.

(** ** Index resolution as a filter

    What one match contributes to the coordinate lists: its pair of
    positions when both look-ups answer, nothing otherwise. *)

Definition resolved_pair (keypoints_1 keypoints_2 : list KeyPoint) (m : DMatch)
  : list (coord * coord) :=
  match getitem keypoints_1 (queryIdx m), getitem keypoints_2 (trainIdx m) with
  | Ok k1, Ok k2 => [(pt k1, pt k2)]
  | _, _ => []
  end.

Definition resolved_pairs (keypoints_1 keypoints_2 : list KeyPoint)
           (matches : list DMatch) : list (coord * coord) :=
  flat_map (resolved_pair keypoints_1 keypoints_2) matches.

(** An index that designates an element counting from the front. *)
Definition in_range {A : Type} (l : list A) (i : Z) : Prop :=
  0 <= i < Z.of_nat (List.length l).

(** The order in which [calculate_matches] reports its matches. *)
Definition distance_le (a b : DMatch) : Prop := distance a <= distance b.

(** Every stage of the cycle that starts with picture number [i] answers,
    each one on what the stages before it produced, and the last one
    answers [speed]. *)
Definition all_stages_succeed (w : World) (i : Z) (speed : float) : Prop :=
  exists image_1 image_2 time_difference image_1_cv image_2_cv
         keypoints_1 keypoints_2 descriptors_1 descriptors_2
         matches coordinates_1 coordinates_2 average_feature_distance,
    take_photo w (image_name i) = Ok image_1
    /\ take_photo w (image_name (i + 1)) = Ok image_2
    /\ get_time_difference w image_1 image_2 = Ok time_difference
    /\ convert_to_cv w image_1 image_2 = Ok (image_1_cv, image_2_cv)
    /\ calculate_features w image_1_cv image_2_cv 1000
       = Ok (keypoints_1, keypoints_2, descriptors_1, descriptors_2)
    /\ calculate_matches descriptors_1 descriptors_2 = Ok matches
    /\ find_matching_coordinates keypoints_1 keypoints_2 matches
       = Ok (coordinates_1, coordinates_2)
    /\ calculate_mean_distance coordinates_1 coordinates_2
       = Ok average_feature_distance
    /\ calculate_speed_in_kmps average_feature_distance GSD time_difference
       = Ok speed.

(** ** Classes of floats *)

(** A zero or a finite number. *)
Definition is_finite (x : float) : bool :=
  match x with
  | S754_zero _ | S754_finite _ _ _ => true
  | _ => false
  end.

(** A float that is not below zero: its sign bit is clear, or it is a zero
    or a NaN. *)
Definition not_negative (x : float) : bool :=
  match x with
  | S754_finite true _ _ | S754_infinity true => false
  | _ => true
  end.

(** ** Two more worlds

    Pictures in which the detector finds nothing: it answers no descriptor
    array at all, or an array without rows. *)

Definition dark_world : World :=
  {| take_photo := take_photo demo_world;
     exif_datetime_original := exif_datetime_original demo_world;
     strptime := demo_time;
     imread := imread demo_world;
     detectAndCompute := fun _ _ => Ok ([], None);
     now := now demo_world |}.

Definition flat_world : World :=
  {| take_photo := take_photo demo_world;
     exif_datetime_original := exif_datetime_original demo_world;
     strptime := demo_time;
     imread := imread demo_world;
     detectAndCompute := fun _ _ => Ok ([], Some []);
     now := now demo_world |}.

(** * Properties *)

(** ** Rounding never loses a positive integer *)


Lemma digits2_pos_lower (m : positive) :
  2 ^ (Zpos (digits2_pos m) - 1) <= Zpos m.
Proof.
  induction m as [m IH | m IH | ]; cbn [digits2_pos].
  - rewrite Pos2Z.inj_succ.
    replace (Z.succ (Zpos (digits2_pos m)) - 1)
      with (Z.succ (Zpos (digits2_pos m) - 1)) by lia.
    rewrite Z.pow_succ_r by lia. lia.
  - rewrite Pos2Z.inj_succ.
    replace (Z.succ (Zpos (digits2_pos m)) - 1)
      with (Z.succ (Zpos (digits2_pos m) - 1)) by lia.
    rewrite Z.pow_succ_r by lia. lia.
  - reflexivity.
Qed.

Lemma digits2_pos_shift (m k : positive) :
  digits2_pos (Pos.iter xO m k) = (digits2_pos m + k)%positive.
Proof.
  induction k as [ | k IH] using Pos.peano_ind.
  - cbn. lia.
  - rewrite Pos.iter_succ. cbn [digits2_pos]. rewrite IH. lia.
Qed.

Lemma shr_1_m (x : shr_record) :
  0 <= shr_m x -> shr_m (shr_1 x) = shr_m x / 2.
Proof.
  destruct x as [m r s]; cbn [shr_m]; intros Hm.
  destruct m as [ | [p | p | ] | p]; cbn [shr_1 shr_m]; try lia.
  - reflexivity.
  - apply Z.div_unique with (r := 1); lia.
  - apply Z.div_unique with (r := 0); lia.
  - reflexivity.
Qed.

Lemma pow2_xI (k : positive) : 2 ^ Zpos k~1 = 2 * (2 ^ Zpos k * 2 ^ Zpos k).
Proof.
  rewrite Pos2Z.inj_xI.
  replace (2 * Zpos k + 1) with (1 + Zpos k + Zpos k) by lia.
  rewrite !Z.pow_add_r by lia. rewrite Z.pow_1_r. ring.
Qed.

Lemma pow2_xO (k : positive) : 2 ^ Zpos k~0 = 2 ^ Zpos k * 2 ^ Zpos k.
Proof.
  replace (Zpos k~0) with (Zpos k + Zpos k) by lia.
  apply Z.pow_add_r; lia.
Qed.

Lemma iter_pos_shr_1_m (k : positive) :
  forall x, 0 <= shr_m x ->
            shr_m (iter_pos shr_1 k x) = shr_m x / 2 ^ Zpos k.
Proof.
  assert (Hpow : forall q : positive, 0 < 2 ^ Zpos q)
    by (intros q; apply Z.pow_pos_nonneg; lia).
  induction k as [k IH | k IH | ]; intros x Hx; cbn [iter_pos].
  - assert (H1 : 0 <= shr_m (shr_1 x))
      by (rewrite shr_1_m by assumption; apply Z.div_pos; lia).
    assert (H2 : 0 <= shr_m (iter_pos shr_1 k (shr_1 x))).
    { rewrite IH by assumption. apply Z.div_pos; [assumption | apply Hpow]. }
    rewrite IH by assumption. rewrite IH by assumption.
    rewrite shr_1_m by assumption.
    pose proof (Hpow k) as Hk.
    rewrite pow2_xI.
    rewrite <- (Z.div_div (shr_m x) 2) by lia.
    rewrite <- Z.div_div by lia. reflexivity.
  - assert (H2 : 0 <= shr_m (iter_pos shr_1 k x)).
    { rewrite IH by assumption. apply Z.div_pos; [assumption | apply Hpow]. }
    rewrite IH by assumption. rewrite IH by assumption.
    pose proof (Hpow k) as Hk.
    rewrite pow2_xO. rewrite <- Z.div_div by lia. reflexivity.
  - rewrite shr_1_m by assumption. reflexivity.
Qed.

Lemma fexp_eq (x : Z) : fexp prec emax x = Z.max (x - 53) (-1074).
Proof. reflexivity. Qed.

Lemma shr_record_of_loc_m (m : Z) (l : location) :
  shr_m (shr_record_of_loc m l) = m.
Proof. destruct l as [ | [ | | ]]; reflexivity. Qed.

Lemma shr_fexp_m (m e : Z) (l : location) :
  0 <= m ->
  shr_m (fst (shr_fexp prec emax m e l))
  = m / 2 ^ Z.max 0 (fexp prec emax (Zdigits2 m + e) - e)
  /\ snd (shr_fexp prec emax m e l)
     = e + Z.max 0 (fexp prec emax (Zdigits2 m + e) - e).
Proof.
  intros Hm. unfold shr_fexp, shr.
  destruct (fexp prec emax (Zdigits2 m + e) - e) as [ | n | n]; cbn [fst snd].
  - rewrite shr_record_of_loc_m. cbn. rewrite Z.div_1_r. lia.
  - rewrite iter_pos_shr_1_m by (rewrite shr_record_of_loc_m; assumption).
    rewrite shr_record_of_loc_m. rewrite Z.max_r by lia. lia.
  - rewrite shr_record_of_loc_m. rewrite Z.max_l by lia.
    cbn. rewrite Z.div_1_r. lia.
Qed.

Lemma round_nearest_even_ge (m : Z) (l : location) :
  m <= round_nearest_even m l.
Proof.
  destruct l as [ | [ | | ]]; cbn [round_nearest_even];
    try destruct (Z.even m); lia.
Qed.

Lemma shifted_positive (m : positive) (k : Z) :
  0 <= k < Zpos (digits2_pos m) -> 1 <= Zpos m / 2 ^ k.
Proof.
  intros Hk.
  assert (H2 : 0 < 2 ^ k) by (apply Z.pow_pos_nonneg; lia).
  assert (H3 : 2 ^ k <= Zpos m).
  { apply Z.le_trans with (2 ^ (Zpos (digits2_pos m) - 1)).
    - apply Z.pow_le_mono_r; lia.
    - apply digits2_pos_lower. }
  pose proof (Z.div_str_pos (Zpos m) (2 ^ k)). lia.
Qed.

Lemma binary_round_aux_nonzero (sx : bool) (m : positive) (e : Z) (l : location) :
  fexp prec emax (Zpos (digits2_pos m) + e) - e < Zpos (digits2_pos m) ->
  is_nonzero_number (binary_round_aux prec emax sx (Zpos m) e l) = true.
Proof.
  intros Hn. unfold binary_round_aux.
  destruct (shr_fexp_m (Zpos m) e l) as [Hm1 He1]; [lia | ].
  destruct (shr_fexp prec emax (Zpos m) e l) as [mrs1 e1].
  cbn [fst snd Zdigits2] in Hm1, He1.
  assert (H1 : 1 <= shr_m mrs1).
  { rewrite Hm1. apply shifted_positive. lia. }
  pose proof (round_nearest_even_ge (shr_m mrs1) (loc_of_shr_record mrs1)) as Hr.
  destruct (round_nearest_even (shr_m mrs1) (loc_of_shr_record mrs1))
    as [ | m2 | m2]; try lia.
  destruct (shr_fexp_m (Zpos m2) e1 loc_Exact) as [Hm2 He2]; [lia | ].
  destruct (shr_fexp prec emax (Zpos m2) e1 loc_Exact) as [mrs2 e2].
  cbn [fst snd Zdigits2] in Hm2, He2.
  assert (H2 : 1 <= shr_m mrs2).
  { rewrite Hm2. apply shifted_positive.
    rewrite fexp_eq in *. lia. }
  destruct (shr_m mrs2) as [ | m3 | m3]; try lia.
  destruct (e2 <=? emax - prec); reflexivity.
Qed.

Lemma of_Z_pos_nonzero (p : positive) : is_nonzero_number (of_Z (Zpos p)) = true.
Proof.
  unfold of_Z, binary_normalize, binary_round, shl_align.
  rewrite fexp_eq.
  destruct (Z.max (Zpos (digits2_pos p) + 0 - 53) (-1074) - 0) as [ | d | d] eqn:E.
  - apply binary_round_aux_nonzero. rewrite fexp_eq. lia.
  - apply binary_round_aux_nonzero. rewrite fexp_eq. lia.
  - apply binary_round_aux_nonzero. rewrite fexp_eq.
    rewrite digits2_pos_shift. lia.
Qed.

Lemma is_nonzero_number_eqb (x : float) :
  is_nonzero_number x = true -> eqb x zero = false.
Proof. destruct x as [s | s | | s m e]; try discriminate; destruct s; reflexivity. Qed.


(** ** Speed *)

Example GSD_value : GSD = S754_finite false 6721184013588890 (-38).
Proof. vm_compute. reflexivity. Qed.

(** C1: for a time difference that does not compare equal to zero,
    [calculate_speed_in_kmps d g t] returns exactly
    [(d * g / 100000.0) / t]; for [d = 10], [g = 100000] and [t = 10] it
    returns [1.0]. *)
Theorem calculate_speed_in_kmps_value :
  (forall d g t : float,
      eqb t zero = false ->
      calculate_speed_in_kmps d g t = Ok (div (div (mul d g) f100000) t))
  /\ calculate_speed_in_kmps f10 f100000 f10 = Ok f1.
Proof.
  split.
  - intros d g t Ht. unfold calculate_speed_in_kmps. rewrite Ht. reflexivity.
  - vm_compute. reflexivity.
Qed.

Lemma calculate_speed_in_kmps_value_witness :
  eqb f10 zero = false
  /\ calculate_speed_in_kmps f5 GSD f10 = Ok (div (div (mul f5 GSD) f100000) f10).
Proof.
  split.
  - vm_compute. reflexivity.
  - apply (proj1 calculate_speed_in_kmps_value f5 GSD f10). vm_compute. reflexivity.
Defined.

(** C2: [calculate_speed_in_kmps] raises if and only if the time difference
    compares equal to zero, and returns a value if and only if it does
    not; it never does both. *)
Theorem calculate_speed_in_kmps_raises_iff (d g t : float) :
  (raises (calculate_speed_in_kmps d g t) <-> eqb t zero = true)
  /\ (returns (calculate_speed_in_kmps d g t) <-> eqb t zero = false).
Proof.
  unfold calculate_speed_in_kmps, raises, returns.
  destruct (eqb t zero); repeat split; intros H;
    try discriminate; try (eexists; reflexivity);
    destruct H as [x Hx]; discriminate.
Qed.

Lemma calculate_speed_in_kmps_raises_iff_witness :
  raises (calculate_speed_in_kmps f5 GSD zero)
  /\ returns (calculate_speed_in_kmps f5 GSD f10).
Proof.
  split.
  - apply (proj1 (calculate_speed_in_kmps_raises_iff f5 GSD zero)).
    vm_compute. reflexivity.
  - apply (proj2 (calculate_speed_in_kmps_raises_iff f5 GSD f10)).
    vm_compute. reflexivity.
Defined.

(** ** Matching: absent and empty descriptor sets *)

(** C3, as stated, fails: with an empty but present set of query
    descriptors [calculate_matches] returns an empty list of matches and
    raises nothing. *)
Lemma calculate_matches_empty_query_succeeds :
  calculate_matches (Some []) (Some [[x00%byte]]) = Ok []
  /\ ~ raises (calculate_matches (Some []) (Some [[x00%byte]])).
Proof.
  split.
  - reflexivity.
  - intros [e He]. discriminate He.
Qed.

(** C3, amended: [calculate_matches] fails with the invalid-input error
    ([ValueError]) whenever either descriptor set is absent ([None]), and
    then returns no list of matches. *)
Theorem calculate_matches_absent_raises (d1 d2 : option descriptors) :
  d1 = None \/ d2 = None ->
  calculate_matches d1 d2
  = Raise (ValueError "Descriptors cannot be None for matching.")
  /\ ~ returns (calculate_matches d1 d2).
Proof.
  intros H.
  assert (E : calculate_matches d1 d2
              = Raise (ValueError "Descriptors cannot be None for matching.")).
  { destruct H as [-> | ->]; [ | destruct d1]; reflexivity. }
  split; [exact E | ].
  intros [ms Hms]. rewrite E in Hms. discriminate Hms.
Qed.

Lemma calculate_matches_absent_raises_witness :
  calculate_matches None (Some [[x00%byte]])
  = Raise (ValueError "Descriptors cannot be None for matching.")
  /\ ~ returns (calculate_matches None (Some [[x00%byte]])).
Proof.
  apply (calculate_matches_absent_raises None (Some [[x00%byte]])).
  left. reflexivity.
Defined.

(** ** Index resolution *)

Lemma getitem_raises_IndexError {A : Type} (l : list A) (i : Z) (e : exn) :
  getitem l i = Raise e -> exists msg, e = IndexError msg.
Proof.
  unfold getitem. intros H.
  destruct ((0 <=? (if i <? 0 then i + Z.of_nat (List.length l) else i))
            && ((if i <? 0 then i + Z.of_nat (List.length l) else i)
                <? Z.of_nat (List.length l))).
  - destruct (nth_error l (Z.to_nat (if i <? 0 then i + Z.of_nat (List.length l) else i)));
      inversion H; eauto.
  - inversion H; eauto.
Qed.

Lemma getitem_in_range {A : Type} (l : list A) (i : Z) :
  in_range l i -> exists a, getitem l i = Ok a /\ nth_error l (Z.to_nat i) = Some a.
Proof.
  unfold in_range, getitem. intros Hi.
  destruct (i <? 0) eqn:Hneg; [apply Z.ltb_lt in Hneg; lia | ].
  replace ((0 <=? i) && (i <? Z.of_nat (List.length l))) with true
    by (symmetry; apply andb_true_iff; split;
        [apply Z.leb_le | apply Z.ltb_lt]; lia).
  destruct (nth_error l (Z.to_nat i)) as [a | ] eqn:E.
  - exists a. split; reflexivity.
  - apply nth_error_None in E. lia.
Qed.


(** The loop over the matches is the filter [resolved_pairs], appended to
    the coordinates collected so far. *)
Lemma matching_coordinates_loop_filter (k1 k2 : list KeyPoint) (ms : list DMatch) :
  forall c1 c2,
    matching_coordinates_loop k1 k2 ms c1 c2
    = Ok ((c1 ++ map fst (resolved_pairs k1 k2 ms))%list,
          (c2 ++ map snd (resolved_pairs k1 k2 ms))%list).
Proof.
  induction ms as [ | m ms IH]; intros c1 c2; cbn [matching_coordinates_loop].
  - cbn. rewrite !app_nil_r. reflexivity.
  - unfold resolved_pairs. cbn [flat_map]. fold (resolved_pairs k1 k2 ms).
    unfold resolve_match, resolved_pair.
    destruct (getitem k1 (queryIdx m)) as [a | e1] eqn:E1; cbn [bind].
    + destruct (getitem k2 (trainIdx m)) as [b | e2] eqn:E2; cbn [bind].
      * rewrite IH. cbn [app map fst snd]. rewrite <- !app_assoc. reflexivity.
      * destruct (getitem_raises_IndexError _ _ _ E2) as [msg ->].
        rewrite IH. reflexivity.
    + destruct (getitem_raises_IndexError _ _ _ E1) as [msg ->].
      rewrite IH. reflexivity.
Qed.

Lemma find_matching_coordinates_filter (k1 k2 : list KeyPoint) (ms : list DMatch) :
  find_matching_coordinates k1 k2 ms
  = Ok (map fst (resolved_pairs k1 k2 ms), map snd (resolved_pairs k1 k2 ms)).
Proof.
  unfold find_matching_coordinates.
  rewrite matching_coordinates_loop_filter. reflexivity.
Qed.

(** C9, the input on which the code departs from the claim: the index
    [-1] designates no key point, yet the match is not skipped; Python
    counts a negative index from the end, so the last key point of the
    first picture is paired and reported. *)
Theorem find_matching_coordinates_negative_index :
  find_matching_coordinates
    [mk_KeyPoint (f1, f1); mk_KeyPoint (f2, f2)] [mk_KeyPoint (f5, f5)]
    [ {| queryIdx := -1; trainIdx := 0; distance := 0 |} ]
  = Ok ([(f2, f2)], [(f5, f5)]).
Proof. vm_compute. reflexivity. Qed.


(** C10: [find_matching_coordinates] always returns two coordinate lists of
    the same length, so the test for differing lengths in
    [calculate_mean_distance] is never true on what it returns. *)
Theorem find_matching_coordinates_equal_lengths
        (k1 k2 : list KeyPoint) (ms : list DMatch) :
  exists c1 c2,
    find_matching_coordinates k1 k2 ms = Ok (c1, c2)
    /\ List.length c1 = List.length c2
    /\ lengths_differ c1 c2 = false.
Proof.
  rewrite find_matching_coordinates_filter.
  eexists. eexists. split; [reflexivity | ].
  assert (E : List.length (map fst (resolved_pairs k1 k2 ms))
              = List.length (map snd (resolved_pairs k1 k2 ms)))
    by (rewrite !length_map; reflexivity).
  split; [exact E | ].
  unfold lengths_differ. rewrite E, Nat.eqb_refl. reflexivity.
Qed.

(** ** Mean displacement *)

Lemma truediv_int_pos (a : float) (n : Z) :
  0 < n -> truediv_int a n = Ok (div a (of_Z n)).
Proof.
  intros Hn. unfold truediv_int.
  destruct n as [ | p | p]; try lia.
  rewrite (is_nonzero_number_eqb _ (of_Z_pos_nonzero p)). reflexivity.
Qed.

Lemma fold_left_add_map {A : Type} (f : A -> float) (l : list A) :
  forall acc,
    fold_left (fun total p => add total (f p)) l acc
    = fold_left add (map f l) acc.
Proof.
  induction l as [ | x l IH]; intros acc; cbn [fold_left map].
  - reflexivity.
  - apply IH.
Qed.

Lemma total_distance_sum (c1 c2 : list coord) :
  total_distance c1 c2 = sum (map pair_distance (combine c1 c2)).
Proof. unfold total_distance, sum. apply fold_left_add_map. Qed.

(** C4: [calculate_mean_distance] never raises; on two non-empty
    coordinate lists of the same length it returns the sum of the pairwise
    Euclidean distances [hypot (x1 - x2) (y1 - y2)] divided by their
    number; if a list is empty or the lengths differ it returns [0.0]; on
    [[(0,0)]] and [[(3,4)]] it returns [5.0]. *)
Theorem calculate_mean_distance_spec :
  (forall c1 c2, returns (calculate_mean_distance c1 c2))
  /\ (forall c1 c2,
         c1 <> [] -> List.length c1 = List.length c2 ->
         calculate_mean_distance c1 c2
         = Ok (div (sum (map pair_distance (combine c1 c2)))
                   (of_Z (Z.of_nat (List.length c1)))))
  /\ (forall c1 c2,
         c1 = [] \/ c2 = [] \/ List.length c1 <> List.length c2 ->
         calculate_mean_distance c1 c2 = Ok zero)
  /\ (forall x1 y1 x2 y2,
         pair_distance ((x1, y1), (x2, y2)) = hypot (sub x1 x2) (sub y1 y2))
  /\ calculate_mean_distance [(zero, zero)] [(f3, f4)] = Ok f5.
Proof.
  assert (Hmean : forall c1 c2,
             c1 <> [] -> List.length c1 = List.length c2 ->
             calculate_mean_distance c1 c2
             = Ok (div (sum (map pair_distance (combine c1 c2)))
                       (of_Z (Z.of_nat (List.length c1))))).
  { intros c1 c2 Hne Hlen. unfold calculate_mean_distance, lengths_differ.
    apply Nat.eqb_eq in Hlen. rewrite Hlen.
    destruct c1 as [ | p c1]; [contradiction | ].
    destruct c2 as [ | q c2]; [discriminate | ].
    cbn [is_empty orb negb].
    rewrite truediv_int_pos by (cbn [List.length]; lia).
    rewrite total_distance_sum. reflexivity. }
  assert (Hzero : forall c1 c2,
             c1 = [] \/ c2 = [] \/ List.length c1 <> List.length c2 ->
             calculate_mean_distance c1 c2 = Ok zero).
  { intros c1 c2 H. unfold calculate_mean_distance, lengths_differ.
    destruct H as [-> | [-> | H]].
    - reflexivity.
    - cbn [is_empty]. rewrite orb_true_r. reflexivity.
    - apply Nat.eqb_neq in H. rewrite H. cbn [negb].
      rewrite orb_true_r. reflexivity. }
  repeat apply conj.
  - intros c1 c2.
    destruct c1 as [ | p c1]; [eexists; apply Hzero; auto | ].
    destruct (Nat.eq_dec (List.length (p :: c1)) (List.length c2)) as [E | E].
    + eexists. apply Hmean; [discriminate | exact E].
    + eexists. apply Hzero; auto.
  - exact Hmean.
  - exact Hzero.
  - reflexivity.
  - vm_compute. reflexivity.
Qed.

Lemma calculate_mean_distance_spec_witness :
  calculate_mean_distance [(zero, zero); (f1, f1)] [(f3, f4); (f4, f5)]
  = Ok (div (sum (map pair_distance
                      (combine [(zero, zero); (f1, f1)] [(f3, f4); (f4, f5)])))
            (of_Z 2))
  /\ calculate_mean_distance [] [(f3, f4)] = Ok zero.
Proof.
  split.
  - apply (proj1 (proj2 calculate_mean_distance_spec)
                 [(zero, zero); (f1, f1)] [(f3, f4); (f4, f5)]).
    + discriminate.
    + reflexivity.
  - apply (proj1 (proj2 (proj2 calculate_mean_distance_spec)) [] [(f3, f4)]).
    left. reflexivity.
Defined.

(** ** The session result *)

(** Rounding to five digits on two values. *)
Example round_five_digits :
  round (of_ratio 7654321 1000000) 5 = of_ratio 765432 100000
  /\ round (of_ratio 1000005 1000000) 5 = of_ratio 100001 100000
  /\ round f2 5 = f2.
Proof. vm_compute. repeat split. Qed.

Lemma average_speed_mean (speeds : list float) :
  speeds <> [] ->
  average_speed speeds
  = Ok (Float (div (sum speeds) (of_Z (Z.of_nat (List.length speeds))))).
Proof.
  intros Hne. unfold average_speed.
  destruct speeds as [ | x speeds]; [contradiction | ].
  cbn [is_empty negb].
  rewrite truediv_int_pos by (cbn [List.length]; lia).
  reflexivity.
Qed.

Lemma session_result_rounds (speeds : list float) :
  exists v, average_speed speeds = Ok v
            /\ session_result speeds = Ok (round_number v 5).
Proof.
  unfold session_result.
  destruct speeds as [ | x speeds].
  - exists (Int 0). split; reflexivity.
  - rewrite average_speed_mean by discriminate. eexists. split; reflexivity.
Qed.

(** C5: the average of the accumulated speeds is their sum divided by
    their number when there is at least one (for [[1.0; 2.0; 3.0]] it is
    [2.0]) and the integer [0] when there is none, and the session result is
    that average rounded to five decimal digits. *)
Theorem session_result_spec :
  (forall speeds,
      speeds <> [] ->
      average_speed speeds
      = Ok (Float (div (sum speeds) (of_Z (Z.of_nat (List.length speeds))))))
  /\ average_speed [] = Ok (Int 0)
  /\ average_speed [f1; f2; f3] = Ok (Float f2)
  /\ (forall speeds,
         exists v, average_speed speeds = Ok v
                   /\ session_result speeds = Ok (round_number v 5))
  /\ session_result [f1; f2; f3] = Ok (Float f2)
  /\ session_result [] = Ok (Int 0).
Proof.
  repeat apply conj.
  - exact average_speed_mean.
  - reflexivity.
  - vm_compute. reflexivity.
  - exact session_result_rounds.
  - vm_compute. reflexivity.
  - reflexivity.
Qed.

Lemma session_result_spec_witness :
  average_speed [f1; f2]
  = Ok (Float (div (sum [f1; f2]) (of_Z 2))).
Proof.
  apply (proj1 session_result_spec [f1; f2]). discriminate.
Defined.

(** ** Elapsed time *)

Lemma timedelta_us_new (d s us : Z) :
  timedelta_us (timedelta_new d s us) = (d * 86400 + s) * us_per_second + us.
Proof.
  unfold timedelta_us, timedelta_new. cbn [days seconds microseconds].
  set (total := (d * 86400 + s) * us_per_second + us).
  pose proof (Z.div_mod total us_per_day) as H1.
  pose proof (Z.div_mod (total mod us_per_day) us_per_second) as H2.
  unfold us_per_day, us_per_second in *. lia.
Qed.

Lemma datetime_sub_us (a b : datetime) :
  timedelta_us (datetime_sub a b) = datetime_us a - datetime_us b.
Proof.
  unfold datetime_sub. rewrite timedelta_us_new.
  unfold datetime_us, us_per_second. ring.
Qed.

Lemma abs_binary_round_aux (sx : bool) (m e : Z) (l : location) :
  abs (binary_round_aux prec emax sx m e l) = binary_round_aux prec emax false m e l.
Proof.
  unfold binary_round_aux.
  destruct (shr_fexp prec emax m e l) as [mrs1 e1].
  destruct (shr_fexp prec emax
              (round_nearest_even (shr_m mrs1) (loc_of_shr_record mrs1))
              e1 loc_Exact) as [mrs2 e2].
  destruct (shr_m mrs2); [reflexivity | | reflexivity].
  destruct (e2 <=? emax - prec); reflexivity.
Qed.

Lemma ltb_binary_round_aux (m e : Z) (l : location) :
  ltb (binary_round_aux prec emax false m e l) zero = false.
Proof.
  unfold binary_round_aux.
  destruct (shr_fexp prec emax m e l) as [mrs1 e1].
  destruct (shr_fexp prec emax
              (round_nearest_even (shr_m mrs1) (loc_of_shr_record mrs1))
              e1 loc_Exact) as [mrs2 e2].
  destruct (shr_m mrs2); [reflexivity | | reflexivity].
  destruct (e2 <=? emax - prec); reflexivity.
Qed.

Lemma div_finite (sx : bool) (p d : positive) :
  exists m e l,
    forall s, div (S754_finite s p 0) (S754_finite false d 0)
              = binary_round_aux prec emax (xorb s false) m e l.
Proof.
  unfold div, SFdiv.
  destruct (SFdiv_core_binary prec emax (Zpos p) 0 (Zpos d) 0) as [[m e] l].
  exists m, e, l. reflexivity.
Qed.

Lemma abs_of_ratio (n : Z) (d : positive) :
  abs (of_ratio n d) = of_ratio (Z.abs n) d.
Proof.
  destruct n as [ | p | p]; cbn [of_ratio Z.abs].
  - reflexivity.
  - destruct (div_finite false p d) as [m [e [l H]]].
    rewrite H. apply abs_binary_round_aux.
  - destruct (div_finite false p d) as [m [e [l H]]].
    rewrite !H. apply abs_binary_round_aux.
Qed.

Lemma ltb_of_ratio_nonneg (n : Z) (d : positive) :
  0 <= n -> ltb (of_ratio n d) zero = false.
Proof.
  intros Hn. destruct n as [ | p | p]; cbn [of_ratio]; try lia.
  - reflexivity.
  - destruct (div_finite false p d) as [m [e [l H]]].
    rewrite H. apply ltb_binary_round_aux.
Qed.

Lemma get_time_difference_value (w : World) (a b : string) (ta tb : datetime) :
  get_time w a = Ok ta -> get_time w b = Ok tb ->
  get_time_difference w a b
  = Ok (of_ratio (Z.abs (datetime_us tb - datetime_us ta)) 1000000).
Proof.
  intros Ha Hb. unfold get_time_difference. rewrite Ha, Hb. cbn [bind].
  unfold total_seconds. rewrite abs_of_ratio, datetime_sub_us. reflexivity.
Qed.

(** C7: when the capture times [ta] and [tb] of two pictures can be
    extracted, [get_time_difference] returns the absolute value of
    [tb - ta] in seconds, the same in either order, and never a negative
    number. *)
Theorem get_time_difference_symmetric
        (w : World) (a b : string) (ta tb : datetime) :
  get_time w a = Ok ta -> get_time w b = Ok tb ->
  get_time_difference w a b
  = Ok (of_ratio (Z.abs (datetime_us tb - datetime_us ta)) 1000000)
  /\ get_time_difference w a b = get_time_difference w b a
  /\ exists r, get_time_difference w a b = Ok r /\ ltb r zero = false.
Proof.
  intros Ha Hb.
  rewrite (get_time_difference_value w a b ta tb Ha Hb).
  rewrite (get_time_difference_value w b a tb ta Hb Ha).
  repeat apply conj.
  - reflexivity.
  - f_equal. f_equal. lia.
  - eexists. split; [reflexivity | ].
    apply ltb_of_ratio_nonneg. lia.
Qed.

Lemma get_time_difference_symmetric_witness :
  get_time_difference demo_world "image1.jpg" "image2.jpg" = Ok (of_Z 9)
  /\ get_time_difference demo_world "image2.jpg" "image1.jpg" = Ok (of_Z 9).
Proof.
  destruct (get_time_difference_symmetric
              demo_world "image1.jpg" "image2.jpg"
              (mk_datetime 2024 3 1 10 0 0 0) (mk_datetime 2024 3 1 10 0 9 0)
              eq_refl eq_refl) as [H1 [H2 _]].
  split.
  - rewrite H1. vm_compute. reflexivity.
  - rewrite <- H2, H1. vm_compute. reflexivity.
Defined.

(** ** Matching: order, distances and query indices *)

Lemma popcount_pos_nonneg (p : positive) : 0 <= popcount_pos p.
Proof. induction p; cbn [popcount_pos]; lia. Qed.

Lemma popcount_nonneg (n : N) : 0 <= popcount n.
Proof. destruct n; cbn [popcount]; [lia | apply popcount_pos_nonneg]. Qed.

Lemma hamming_nonneg (a : descriptor) : forall b, 0 <= hamming a b.
Proof.
  induction a as [ | x a IH]; intros [ | y b]; cbn [hamming]; try lia.
  specialize (IH b).
  pose proof (popcount_nonneg (N.lxor (Byte.to_N x) (Byte.to_N y))). lia.
Qed.

Lemma nearest_from_nonneg (d : descriptor) (ts : descriptors) :
  forall j best j' h',
    (forall jb hb, best = Some (jb, hb) -> 0 <= hb) ->
    nearest_from d ts j best = Some (j', h') -> 0 <= h'.
Proof.
  induction ts as [ | t ts IH]; intros j best j' h' Hbest H; cbn [nearest_from] in H.
  - eapply Hbest. exact H.
  - eapply IH; [ | exact H].
    intros jb hb E. pose proof (hamming_nonneg d t) as Hh.
    destruct best as [[j0 h0] | ].
    + destruct (hamming d t <? h0); inversion E; subst; [lia | eauto].
    + inversion E; subst. lia.
Qed.

Lemma cross_checked_cases (qs ts : descriptors) (i : Z) (q : descriptor) :
  cross_checked qs ts i q = []
  \/ exists j h, 0 <= h
                 /\ cross_checked qs ts i q
                    = [ {| queryIdx := i; trainIdx := j; distance := h |} ].
Proof.
  unfold cross_checked.
  destruct (nearest q ts) as [[j h] | ] eqn:E; [ | left; reflexivity].
  destruct (nth_error ts (Z.to_nat j)) as [t | ]; [ | left; reflexivity].
  destruct (nearest t qs) as [[i' h'] | ]; [ | left; reflexivity].
  destruct (i' =? i); [ | left; reflexivity].
  right. exists j, h. split; [ | reflexivity].
  unfold nearest in E. eapply nearest_from_nonneg; [ | exact E].
  intros jb hb Hb. discriminate Hb.
Qed.

Lemma cross_check_from_indices (qs ts : descriptors) (rest : descriptors) :
  forall i,
    NoDup (map queryIdx (cross_check_from qs ts i rest))
    /\ Forall (fun m => i <= queryIdx m /\ 0 <= distance m)
              (cross_check_from qs ts i rest).
Proof.
  induction rest as [ | q rest IH]; intros i; cbn [cross_check_from].
  - split; constructor.
  - destruct (IH (i + 1)) as [Hnd Hall].
    assert (Hall' : Forall (fun m => i <= queryIdx m /\ 0 <= distance m)
                           (cross_check_from qs ts (i + 1) rest)).
    { eapply Forall_impl; [ | exact Hall]. cbn. intros m [H1 H2]. lia. }
    destruct (cross_checked_cases qs ts i q) as [-> | [j [h [Hh ->]]]];
      cbn [app map].
    + split; assumption.
    + split.
      * constructor; [ | exact Hnd].
        cbn [queryIdx]. intros Hin. apply in_map_iff in Hin.
        destruct Hin as [m [Em Hm]].
        rewrite Forall_forall in Hall. specialize (Hall m Hm). lia.
      * constructor; [cbn; lia | exact Hall'].
Qed.

Lemma insert_by_distance_perm (m : DMatch) (l : list DMatch) :
  Permutation (m :: l) (insert_by_distance m l).
Proof.
  induction l as [ | x l IH]; cbn [insert_by_distance].
  - apply Permutation_refl.
  - destruct (distance m <? distance x).
    + apply Permutation_refl.
    + eapply perm_trans; [apply perm_swap | ]. apply perm_skip. exact IH.
Qed.

Lemma sorted_by_distance_perm (l : list DMatch) :
  Permutation l (sorted_by_distance l).
Proof.
  induction l as [ | x l IH]; cbn.
  - constructor.
  - eapply perm_trans; [apply perm_skip; exact IH | ].
    apply insert_by_distance_perm.
Qed.

Lemma insert_by_distance_sorted (m : DMatch) (l : list DMatch) :
  StronglySorted distance_le l ->
  StronglySorted distance_le (insert_by_distance m l).
Proof.
  induction 1 as [ | x l Hs IH Hx]; cbn [insert_by_distance].
  - repeat constructor.
  - destruct (distance m <? distance x) eqn:E.
    + apply Z.ltb_lt in E. constructor.
      * constructor; assumption.
      * constructor; [unfold distance_le; lia | ].
        eapply Forall_impl; [ | exact Hx].
        unfold distance_le. intros y Hy. lia.
    + apply Z.ltb_ge in E. constructor; [exact IH | ].
      eapply Permutation_Forall; [apply insert_by_distance_perm | ].
      constructor; [exact E | exact Hx].
Qed.

Lemma sorted_by_distance_sorted (l : list DMatch) :
  StronglySorted distance_le (sorted_by_distance l).
Proof.
  induction l as [ | x l IH]; cbn.
  - constructor.
  - apply insert_by_distance_sorted. exact IH.
Qed.

(** C8: on two non-empty descriptor sets [calculate_matches] returns a
    list of matches in which no query index occurs twice, every distance is
    non-negative, and the distances are in ascending order. *)
Theorem calculate_matches_sorted_one_to_one (q t : descriptors) :
  q <> [] -> t <> [] ->
  exists ms,
    calculate_matches (Some q) (Some t) = Ok ms
    /\ NoDup (map queryIdx ms)
    /\ Forall (fun m => 0 <= distance m) ms
    /\ StronglySorted distance_le ms.
Proof.
  intros Hq Ht.
  destruct q as [ | q0 q]; [contradiction | ].
  destruct t as [ | t0 t]; [contradiction | ].
  cbn [calculate_matches bf_match bind].
  eexists. split; [reflexivity | ].
  destruct (cross_check_from_indices (q0 :: q) (t0 :: t) (q0 :: q) 0)
    as [Hnd Hall].
  pose proof (sorted_by_distance_perm
                (cross_check_from (q0 :: q) (t0 :: t) 0 (q0 :: q))) as Hp.
  repeat apply conj.
  - eapply Permutation_NoDup; [ | exact Hnd].
    apply Permutation_map. exact Hp.
  - eapply Permutation_Forall; [exact Hp | ].
    eapply Forall_impl; [ | exact Hall]. cbn. intros m [_ H]. exact H.
  - apply sorted_by_distance_sorted.
Qed.

Lemma calculate_matches_sorted_one_to_one_witness :
  exists ms,
    calculate_matches (Some [[x0f%byte]; [x00%byte]; [xff%byte]])
                      (Some [[x01%byte]; [xfe%byte]; [x00%byte]]) = Ok ms
    /\ NoDup (map queryIdx ms)
    /\ Forall (fun m => 0 <= distance m) ms
    /\ StronglySorted distance_le ms.
Proof.
  apply (calculate_matches_sorted_one_to_one
           [[x0f%byte]; [x00%byte]; [xff%byte]]
           [[x01%byte]; [xfe%byte]; [x00%byte]]); discriminate.
Defined.

(** ** The sampling loop *)

Lemma measure_ok (w : World) (image_1 image_2 : string) (v : float) :
  measure w image_1 image_2 = Ok v <->
  exists time_difference image_1_cv image_2_cv k1 k2 d1 d2 ms c1 c2 avg,
    get_time_difference w image_1 image_2 = Ok time_difference
    /\ convert_to_cv w image_1 image_2 = Ok (image_1_cv, image_2_cv)
    /\ calculate_features w image_1_cv image_2_cv 1000 = Ok (k1, k2, d1, d2)
    /\ calculate_matches d1 d2 = Ok ms
    /\ find_matching_coordinates k1 k2 ms = Ok (c1, c2)
    /\ calculate_mean_distance c1 c2 = Ok avg
    /\ calculate_speed_in_kmps avg GSD time_difference = Ok v.
Proof.
  unfold measure. split.
  - intros H.
    destruct (get_time_difference w image_1 image_2) as [td | ] eqn:E1;
      cbn [bind] in H; [ | discriminate].
    destruct (convert_to_cv w image_1 image_2) as [[cv1 cv2] | ] eqn:E2;
      cbn [bind] in H; [ | discriminate].
    destruct (calculate_features w cv1 cv2 1000) as [[[[k1 k2] d1] d2] | ] eqn:E3;
      cbn [bind] in H; [ | discriminate].
    destruct (calculate_matches d1 d2) as [ms | ] eqn:E4;
      cbn [bind] in H; [ | discriminate].
    destruct (find_matching_coordinates k1 k2 ms) as [[c1 c2] | ] eqn:E5;
      cbn [bind] in H; [ | discriminate].
    destruct (calculate_mean_distance c1 c2) as [avg | ] eqn:E6;
      cbn [bind] in H; [ | discriminate].
    exists td, cv1, cv2, k1, k2, d1, d2, ms, c1, c2, avg.
    repeat apply conj; assumption || reflexivity.
  - intros (td & cv1 & cv2 & k1 & k2 & d1 & d2 & ms & c1 & c2 & avg
            & H1 & H2 & H3 & H4 & H5 & H6 & H7).
    rewrite H1; cbn [bind]. rewrite H2; cbn [bind]. rewrite H3; cbn [bind].
    rewrite H4; cbn [bind]. rewrite H5; cbn [bind]. rewrite H6; cbn [bind].
    exact H7.
Qed.

Lemma cycle_body_ok (w : World) (i : Z) (v : float) :
  snd (cycle_body w i) = Ok v <-> all_stages_succeed w i v.
Proof.
  unfold cycle_body, all_stages_succeed. split.
  - intros H.
    destruct (take_photo w (image_name i)) as [image_1 | ] eqn:P1;
      [ | discriminate].
    destruct (take_photo w (image_name (i + 1))) as [image_2 | ] eqn:P2;
      [ | discriminate].
    cbn [snd] in H. apply measure_ok in H.
    destruct H as (td & cv1 & cv2 & k1 & k2 & d1 & d2 & ms & c1 & c2 & avg & H).
    exists image_1, image_2, td, cv1, cv2, k1, k2, d1, d2, ms, c1, c2, avg.
    repeat apply conj; try (assumption || reflexivity); apply H.
  - intros (image_1 & image_2 & td & cv1 & cv2 & k1 & k2 & d1 & d2 & ms
            & c1 & c2 & avg & P1 & P2 & H).
    rewrite P1, P2. cbn [snd]. apply measure_ok.
    exists td, cv1, cv2, k1, k2, d1, d2, ms, c1, c2, avg. exact H.
Qed.

Lemma iteration_speeds (w : World) (st : loop_state) :
  speeds (iteration w st)
  = match snd (cycle_body w (counter st)) with
    | Ok v => (speeds st ++ [v])%list
    | Raise _ => speeds st
    end.
Proof.
  unfold iteration.
  destruct (cycle_body w (counter st)) as [i outcome]. reflexivity.
Qed.

(** C6: one turn of the sampling loop appends a speed to the collection
    exactly when every stage of the cycle succeeded, and then it is the
    speed the last stage answered; if some stage failed, the collection is
    left as it was; in both cases the loop goes on to its next test of the
    deadline. *)
Theorem iteration_atomic (w : World) (st : loop_state) :
  (forall v, speeds (iteration w st) = (speeds st ++ [v])%list
             <-> all_stages_succeed w (counter st) v)
  /\ ((forall v, ~ all_stages_succeed w (counter st) v) ->
      speeds (iteration w st) = speeds st)
  /\ (forall e, snd (cycle_body w (counter st)) = Raise e ->
                speeds (iteration w st) = speeds st)
  /\ (forall start_time fuel,
         before_deadline (now_time st) start_time five_minutes = true ->
         sampling_loop w start_time (S fuel) st
         = sampling_loop w start_time fuel (iteration w st)).
Proof.
  repeat apply conj.
  - intros v. rewrite iteration_speeds, <- cycle_body_ok.
    destruct (snd (cycle_body w (counter st))) as [v0 | e]; split; intros H.
    + apply app_inv_head in H. congruence.
    + congruence.
    + apply (f_equal (@List.length float)) in H.
      rewrite length_app in H. cbn in H. lia.
    + discriminate.
  - intros H. rewrite iteration_speeds.
    destruct (snd (cycle_body w (counter st))) as [v0 | e] eqn:E;
      [ | reflexivity].
    apply cycle_body_ok in E. elim (H v0 E).
  - intros e H. rewrite iteration_speeds, H. reflexivity.
  - intros start_time fuel H. cbn [sampling_loop]. rewrite H. reflexivity.
Qed.

Lemma iteration_atomic_witness :
  speeds (iteration blind_world (initial_state blind_world))
  = speeds (initial_state blind_world)
  /\ sampling_loop demo_world (now demo_world 0%nat) 4 (initial_state demo_world)
     = sampling_loop demo_world (now demo_world 0%nat) 3
                     (iteration demo_world (initial_state demo_world)).
Proof.
  split.
  - apply (proj1 (proj2 (iteration_atomic blind_world (initial_state blind_world)))).
    intros v Hv. apply cycle_body_ok in Hv. discriminate Hv.
  - apply (proj2 (proj2 (proj2 (iteration_atomic demo_world
                                                  (initial_state demo_world))))).
    vm_compute. reflexivity.
Defined.


(** Whenever the loop ends, the session has a result. *)
Lemma main_returns (w : World) (fuel : nat) (r : result number) :
  main w fuel = Some r -> returns r.
Proof.
  unfold main.
  destruct (sampling_loop w (now w 0%nat) fuel (initial_state w)) as [st | ];
    [ | discriminate].
  intros H. inversion H; subst.
  destruct (session_result_rounds (speeds st)) as [v [_ Hv]].
  exists (round_number v 5). exact Hv.
Qed.

(** * Further properties of the program *)

(** ** Reading the capture time *)

(** [get_time] answers a time exactly when the picture carries a non-empty
    [datetime_original] tag that [strptime] parses; a missing or an empty
    tag is a [ValueError] that names the picture, and an error of the EXIF
    reader is passed on unchanged. *)
Theorem get_time_spec (w : World) (image : string) :
  (forall t, get_time w image = Ok t <->
             exists s, exif_datetime_original w image = Ok (Some s)
                       /\ s <> EmptyString
                       /\ strptime w s = Ok t)
  /\ (exif_datetime_original w image = Ok None
      \/ exif_datetime_original w image = Ok (Some EmptyString) ->
      get_time w image
      = Raise (ValueError
                 ("EXIF data does not contain 'datetime_original' for " ++ image)))
  /\ (forall e, exif_datetime_original w image = Raise e ->
                get_time w image = Raise e).
Proof.
  unfold get_time. repeat apply conj.
  - intros t. split.
    + destruct (exif_datetime_original w image) as [[[ | c s] | ] | e];
        cbn [bind]; intros H; try discriminate H.
      exists (String c s). repeat apply conj; [reflexivity | discriminate | exact H].
    + intros [s [E [Hs Ht]]]. rewrite E. cbn [bind].
      destruct s as [ | c s]; [contradiction | exact Ht].
  - intros [E | E]; rewrite E; reflexivity.
  - intros e E. rewrite E. reflexivity.
Qed.

Lemma get_time_spec_witness :
  get_time demo_world "image1.jpg" = Ok (mk_datetime 2024 3 1 10 0 0 0).
Proof.
  apply (proj1 (get_time_spec demo_world "image1.jpg")).
  exists "2024:03:01 10:00:00"%string.
  repeat apply conj; [reflexivity | discriminate | reflexivity].
Defined.

(** [get_time_difference] answers exactly when both capture times can be
    read; otherwise it fails with the error of the first picture whose time
    cannot be read. *)
Theorem get_time_difference_propagates (w : World) (a b : string) :
  (returns (get_time_difference w a b)
   <-> returns (get_time w a) /\ returns (get_time w b))
  /\ (forall e, get_time w a = Raise e -> get_time_difference w a b = Raise e)
  /\ (forall ta e, get_time w a = Ok ta -> get_time w b = Raise e ->
                   get_time_difference w a b = Raise e).
Proof.
  unfold get_time_difference, returns. split; [ | split].
  - destruct (get_time w a) as [ta | ea]; cbn [bind].
    + destruct (get_time w b) as [tb | eb]; cbn [bind]; split.
      * intros _. split; eexists; reflexivity.
      * intros _. eexists. reflexivity.
      * intros [r H]. discriminate H.
      * intros [_ [r H]]. discriminate H.
    + split.
      * intros [r H]. discriminate H.
      * intros [[r H] _]. discriminate H.
  - intros e E. rewrite E. reflexivity.
  - intros ta e Ea Eb. rewrite Ea, Eb. reflexivity.
Qed.

Lemma get_time_difference_propagates_witness :
  returns (get_time_difference demo_world "image1.jpg" "image2.jpg").
Proof.
  apply (proj1 (get_time_difference_propagates demo_world "image1.jpg" "image2.jpg")).
  split; eexists; reflexivity.
Defined.

(** Two pictures that carry the same capture time are zero seconds apart,
    and no speed comes out of them: the cycle ends in an error, the one of
    [calculate_speed_in_kmps] if no earlier stage failed. *)
Theorem same_capture_time_no_speed (w : World) (a b : string) (t : datetime) :
  get_time w a = Ok t -> get_time w b = Ok t ->
  get_time_difference w a b = Ok zero
  /\ ~ returns (measure w a b)
  /\ (forall d g, calculate_speed_in_kmps d g zero
                  = Raise (ValueError "Time difference is zero; cannot compute speed.")).
Proof.
  intros Ha Hb.
  assert (E : get_time_difference w a b = Ok zero).
  { rewrite (get_time_difference_value w a b t t Ha Hb).
    rewrite Z.sub_diag. reflexivity. }
  repeat apply conj.
  - exact E.
  - intros [v Hv]. apply measure_ok in Hv.
    destruct Hv as (td & cv1 & cv2 & k1 & k2 & d1 & d2 & ms & c1 & c2 & avg
                    & H1 & _ & _ & _ & _ & _ & H7).
    rewrite E in H1. inversion H1; subst. discriminate H7.
  - reflexivity.
Qed.

Lemma same_capture_time_no_speed_witness :
  get_time_difference demo_world "image3.jpg" "image4.jpg" = Ok zero
  /\ ~ returns (measure demo_world "image3.jpg" "image4.jpg").
Proof.
  destruct (same_capture_time_no_speed
              demo_world "image3.jpg" "image4.jpg" (mk_datetime 2024 3 1 10 0 9 0)
              eq_refl eq_refl) as [H1 [H2 _]].
  split; assumption.
Defined.

(** ** Loading the pictures *)

(** [convert_to_cv] answers the two decoded pictures exactly when both
    files decode; otherwise it is a [ValueError] that names the file that
    did not decode, the first one if neither did. *)
Theorem convert_to_cv_spec (w : World) (image_1 image_2 : string) :
  (forall a b, convert_to_cv w image_1 image_2 = Ok (a, b)
               <-> imread w image_1 = Some a /\ imread w image_2 = Some b)
  /\ (imread w image_1 = None ->
      convert_to_cv w image_1 image_2
      = Raise (ValueError ("Failed to read image: " ++ image_1)))
  /\ (imread w image_1 <> None -> imread w image_2 = None ->
      convert_to_cv w image_1 image_2
      = Raise (ValueError ("Failed to read image: " ++ image_2))).
Proof.
  unfold convert_to_cv. repeat apply conj.
  - intros a b.
    destruct (imread w image_1) as [x | ]; destruct (imread w image_2) as [y | ];
      split; intros H; try discriminate H;
      try (destruct H; discriminate).
    + inversion H; subst. split; reflexivity.
    + destruct H as [H1 H2]. inversion H1; inversion H2; subst. reflexivity.
  - intros E. rewrite E. reflexivity.
  - intros H1 H2. rewrite H2.
    destruct (imread w image_1); [reflexivity | contradiction].
Qed.

Lemma convert_to_cv_spec_witness :
  convert_to_cv demo_world "image1.jpg" "image2.jpg"
  = Ok ([[x00%byte]], [[x01%byte]]).
Proof.
  apply (proj1 (convert_to_cv_spec demo_world "image1.jpg" "image2.jpg")).
  split; reflexivity.
Defined.

(** ** The matches and the key points they designate *)

Lemma nearest_from_range (d : descriptor) (ts : descriptors) :
  forall j best j' h',
    0 <= j ->
    (forall jb hb, best = Some (jb, hb) -> 0 <= jb < j) ->
    nearest_from d ts j best = Some (j', h') ->
    0 <= j' < j + Z.of_nat (List.length ts).
Proof.
  induction ts as [ | t ts IH]; intros j best j' h' Hj Hbest H;
    cbn [nearest_from List.length] in *.
  - specialize (Hbest j' h' H). lia.
  - assert (R : 0 <= j' < j + 1 + Z.of_nat (List.length ts)).
    { eapply IH; [ | | exact H]; [lia | ].
      intros jb hb E. destruct best as [[j0 h0] | ].
      - destruct (hamming d t <? h0); inversion E; subst; [lia | ].
        specialize (Hbest jb hb eq_refl). lia.
      - inversion E; subst. lia. }
    lia.
Qed.

Lemma nearest_range (d : descriptor) (ts : descriptors) (j h : Z) :
  nearest d ts = Some (j, h) -> in_range ts j.
Proof.
  unfold nearest, in_range. intros H.
  pose proof (nearest_from_range d ts 0 None j h) as R.
  apply R in H; [lia | lia | ].
  intros jb hb E. discriminate E.
Qed.

Lemma cross_checked_mutual (qs ts : descriptors) (i : Z) (q : descriptor) :
  Forall (fun m => queryIdx m = i
                   /\ in_range ts (trainIdx m)
                   /\ exists t h,
                       nth_error ts (Z.to_nat (trainIdx m)) = Some t
                       /\ nearest t qs = Some (queryIdx m, h))
         (cross_checked qs ts i q).
Proof.
  unfold cross_checked.
  destruct (nearest q ts) as [[j h] | ] eqn:E; [ | constructor].
  destruct (nth_error ts (Z.to_nat j)) as [t | ] eqn:Et; [ | constructor].
  destruct (nearest t qs) as [[i' h'] | ] eqn:E'; [ | constructor].
  destruct (i' =? i) eqn:Ei; [ | constructor].
  apply Z.eqb_eq in Ei. subst i'.
  constructor; [ | constructor]. cbn [queryIdx trainIdx].
  repeat apply conj.
  - reflexivity.
  - apply nearest_range in E. unfold in_range in E. lia.
  - apply nearest_range in E. unfold in_range in E. lia.
  - exists t, h'. split; assumption.
Qed.

Lemma cross_check_from_mutual (qs ts : descriptors) (rest : descriptors) :
  forall i,
    Forall (fun m => i <= queryIdx m < i + Z.of_nat (List.length rest)
                     /\ in_range ts (trainIdx m)
                     /\ exists t h,
                         nth_error ts (Z.to_nat (trainIdx m)) = Some t
                         /\ nearest t qs = Some (queryIdx m, h))
           (cross_check_from qs ts i rest).
Proof.
  induction rest as [ | q rest IH]; intros i; cbn [cross_check_from].
  - constructor.
  - apply Forall_app. split.
    + eapply Forall_impl; [ | apply cross_checked_mutual].
      cbn beta. intros m [H1 H2]. split; [ | exact H2].
      cbn [List.length]. lia.
    + eapply Forall_impl; [ | apply (IH (i + 1))].
      cbn beta. intros m [H1 H2]. split; [ | exact H2].
      cbn [List.length]. lia.
Qed.

Lemma NoDup_map_determined {A B C : Type} (f : A -> B) (g : A -> C) (l : list A) :
  NoDup (map f l) ->
  (forall x y, In x l -> In y l -> g x = g y -> f x = f y) ->
  NoDup (map g l).
Proof.
  induction l as [ | a l IH]; intros Hnd Hdet; cbn [map] in *.
  - constructor.
  - inversion Hnd as [ | b l' Hnotin Hnd']; subst.
    constructor.
    + intros Hin. apply in_map_iff in Hin. destruct Hin as [y [Ey Hy]].
      apply Hnotin. apply in_map_iff. exists y. split; [ | exact Hy].
      apply Hdet; [right; exact Hy | left; reflexivity | exact Ey].
    + apply IH; [exact Hnd' | ].
      intros x y Hx Hy. apply Hdet; right; assumption.
Qed.

Lemma NoDup_bounded_length (l : list Z) (n : nat) :
  NoDup l -> Forall (fun z => 0 <= z < Z.of_nat n) l -> (List.length l <= n)%nat.
Proof.
  intros Hnd Hall.
  assert (Hnd' : NoDup (map Z.to_nat l)).
  { apply (NoDup_map_determined (fun z => z) Z.to_nat).
    - rewrite map_id. exact Hnd.
    - rewrite Forall_forall in Hall. intros x y Hx Hy E.
      pose proof (Hall x Hx). pose proof (Hall y Hy). lia. }
  assert (Hincl : incl (map Z.to_nat l) (seq 0 n)).
  { intros k Hk. apply in_map_iff in Hk. destruct Hk as [z [Ez Hz]].
    rewrite Forall_forall in Hall. specialize (Hall z Hz).
    apply in_seq. lia. }
  pose proof (NoDup_incl_length Hnd' Hincl) as H.
  rewrite length_map, length_seq in H. exact H.
Qed.

Lemma calculate_matches_raw (qs ts : descriptors) (ms : list DMatch) :
  calculate_matches (Some qs) (Some ts) = Ok ms ->
  ms = sorted_by_distance (cross_check_from qs ts 0 qs).
Proof.
  cbn [calculate_matches]. unfold bf_match.
  destruct qs as [ | q0 qs']; cbn [bind].
  - intros H. inversion H. reflexivity.
  - destruct ts as [ | t0 ts']; cbn [bind]; intros H; [discriminate H | ].
    inversion H. reflexivity.
Qed.

(** The matches of two present descriptor sets designate descriptors that
    exist: every query index and every train index is in range; no train
    index occurs twice; so there are at most as many matches as there are
    descriptors in the smaller set. *)
Theorem calculate_matches_indices_valid (qs ts : descriptors) (ms : list DMatch) :
  calculate_matches (Some qs) (Some ts) = Ok ms ->
  Forall (fun m => in_range qs (queryIdx m) /\ in_range ts (trainIdx m)) ms
  /\ NoDup (map trainIdx ms)
  /\ (List.length ms <= Nat.min (List.length qs) (List.length ts))%nat.
Proof.
  intros H. apply calculate_matches_raw in H. subst ms.
  set (raw := cross_check_from qs ts 0 qs).
  pose proof (sorted_by_distance_perm raw) as Hp.
  pose proof (cross_check_from_mutual qs ts qs 0) as Hmut.
  fold raw in Hmut.
  pose proof (Permutation_Forall Hp Hmut) as Hsorted.
  destruct (cross_check_from_indices qs ts qs 0) as [Hnd _].
  fold raw in Hnd.
  assert (Hndq : NoDup (map queryIdx (sorted_by_distance raw))).
  { eapply Permutation_NoDup; [apply Permutation_map; exact Hp | exact Hnd]. }
  assert (Hndt : NoDup (map trainIdx (sorted_by_distance raw))).
  { apply (NoDup_map_determined queryIdx trainIdx); [exact Hndq | ].
    rewrite Forall_forall in Hsorted. intros x y Hx Hy Exy.
    destruct (Hsorted x Hx) as [_ [_ [t [h [Et Hn]]]]].
    destruct (Hsorted y Hy) as [_ [_ [t' [h' [Et' Hn']]]]].
    rewrite Exy in Et. rewrite Et in Et'. inversion Et'; subst t'.
    rewrite Hn in Hn'. inversion Hn'. reflexivity. }
  repeat apply conj.
  - eapply Forall_impl; [ | exact Hsorted].
    cbn beta. unfold in_range. intros m [H1 [H2 _]]. split; [lia | exact H2].
  - exact Hndt.
  - apply Nat.min_glb.
    + rewrite <- (length_map queryIdx).
      apply NoDup_bounded_length; [exact Hndq | ].
      apply Forall_map. eapply Forall_impl; [ | exact Hsorted].
      cbn beta. intros m [H1 _]. lia.
    + rewrite <- (length_map trainIdx).
      apply NoDup_bounded_length; [exact Hndt | ].
      apply Forall_map. eapply Forall_impl; [ | exact Hsorted].
      cbn beta. unfold in_range. intros m [_ [H2 _]]. exact H2.
Qed.

Lemma calculate_matches_indices_valid_witness :
  (List.length (sorted_by_distance
                  (cross_check_from [[x0f%byte]; [x00%byte]; [xff%byte]]
                                    [[x01%byte]; [xfe%byte]] 0
                                    [[x0f%byte]; [x00%byte]; [xff%byte]])) <= 2)%nat.
Proof.
  apply (proj2 (proj2 (calculate_matches_indices_valid
                         [[x0f%byte]; [x00%byte]; [xff%byte]]
                         [[x01%byte]; [xfe%byte]] _ eq_refl))).
Defined.

Lemma resolved_pair_in_range (k1 k2 : list KeyPoint) (m : DMatch) :
  in_range k1 (queryIdx m) -> in_range k2 (trainIdx m) ->
  exists a b, resolved_pair k1 k2 m = [(pt a, pt b)] /\ In a k1 /\ In b k2.
Proof.
  intros H1 H2.
  destruct (getitem_in_range _ _ H1) as [a [Ea Na]].
  destruct (getitem_in_range _ _ H2) as [b [Eb Nb]].
  exists a, b. unfold resolved_pair. rewrite Ea, Eb.
  repeat apply conj; [reflexivity | | ]; eapply nth_error_In; eassumption.
Qed.

Lemma getitem_In {A : Type} (l : list A) (i : Z) (a : A) :
  getitem l i = Ok a -> In a l.
Proof.
  unfold getitem.
  destruct ((0 <=? (if i <? 0 then i + Z.of_nat (List.length l) else i))
            && ((if i <? 0 then i + Z.of_nat (List.length l) else i)
                <? Z.of_nat (List.length l))); [ | discriminate].
  destruct (nth_error l (Z.to_nat (if i <? 0 then i + Z.of_nat (List.length l) else i)))
    as [x | ] eqn:E; [ | discriminate].
  intros H. inversion H; subst. eapply nth_error_In. exact E.
Qed.

Lemma resolved_pair_cases (k1 k2 : list KeyPoint) (m : DMatch) :
  resolved_pair k1 k2 m = []
  \/ exists a b, resolved_pair k1 k2 m = [(pt a, pt b)] /\ In a k1 /\ In b k2.
Proof.
  unfold resolved_pair.
  destruct (getitem k1 (queryIdx m)) as [a | ] eqn:Ea; [ | left; reflexivity].
  destruct (getitem k2 (trainIdx m)) as [b | ] eqn:Eb; [ | left; reflexivity].
  right. exists a, b.
  repeat apply conj; [reflexivity | | ]; eapply getitem_In; eassumption.
Qed.

Lemma resolved_pairs_sound (k1 k2 : list KeyPoint) (ms : list DMatch) :
  (List.length (resolved_pairs k1 k2 ms) <= List.length ms)%nat
  /\ Forall (fun p => In (fst p) (map pt k1) /\ In (snd p) (map pt k2))
            (resolved_pairs k1 k2 ms).
Proof.
  unfold resolved_pairs.
  induction ms as [ | m ms [IHl IHf]]; cbn [flat_map List.length].
  - split; [lia | constructor].
  - destruct (resolved_pair_cases k1 k2 m) as [-> | [a [b [-> [Ha Hb]]]]];
      cbn [app List.length].
    + split; [lia | exact IHf].
    + split; [lia | ].
      constructor; [ | exact IHf].
      cbn [fst snd]. split; apply in_map; assumption.
Qed.

Lemma resolved_pairs_complete (k1 k2 : list KeyPoint) (ms : list DMatch) :
  Forall (fun m => in_range k1 (queryIdx m) /\ in_range k2 (trainIdx m)) ms ->
  List.length (resolved_pairs k1 k2 ms) = List.length ms.
Proof.
  unfold resolved_pairs.
  induction 1 as [ | m ms [H1 H2] _ IH]; cbn [flat_map List.length].
  - reflexivity.
  - destruct (resolved_pair_in_range k1 k2 m H1 H2) as [a [b [-> _]]].
    cbn [app List.length]. rewrite IH. reflexivity.
Qed.

(** Index resolution invents nothing: every coordinate it returns is the
    position of a key point of the corresponding picture, and it returns at
    most one pair of coordinates per match. *)
Theorem find_matching_coordinates_sound
        (k1 k2 : list KeyPoint) (ms : list DMatch) :
  exists c1 c2,
    find_matching_coordinates k1 k2 ms = Ok (c1, c2)
    /\ (List.length c1 <= List.length ms)%nat
    /\ Forall (fun c => In c (map pt k1)) c1
    /\ Forall (fun c => In c (map pt k2)) c2.
Proof.
  rewrite find_matching_coordinates_filter.
  destruct (resolved_pairs_sound k1 k2 ms) as [Hl Hf].
  eexists. eexists. split; [reflexivity | ].
  repeat apply conj.
  - rewrite length_map. exact Hl.
  - apply Forall_map. eapply Forall_impl; [ | exact Hf].
    cbn beta. intros p [H _]. exact H.
  - apply Forall_map. eapply Forall_impl; [ | exact Hf].
    cbn beta. intros p [_ H]. exact H.
Qed.

(** Index resolution goes through the matches one by one: the coordinates
    of a concatenation of two match lists are the coordinates of the first
    list followed by those of the second. *)
Theorem find_matching_coordinates_app
        (k1 k2 : list KeyPoint) (ms1 ms2 : list DMatch) :
  exists a1 a2 b1 b2,
    find_matching_coordinates k1 k2 ms1 = Ok (a1, a2)
    /\ find_matching_coordinates k1 k2 ms2 = Ok (b1, b2)
    /\ find_matching_coordinates k1 k2 (ms1 ++ ms2)
       = Ok ((a1 ++ b1)%list, (a2 ++ b2)%list).
Proof.
  rewrite !find_matching_coordinates_filter.
  do 4 eexists. split; [reflexivity | ]. split; [reflexivity | ].
  unfold resolved_pairs. rewrite flat_map_app, !map_app. reflexivity.
Qed.

(** In the pipeline no match is dropped: when each picture has as many key
    points as descriptors, every match that [calculate_matches] reports is
    resolved, so there are as many coordinate pairs as matches. *)
Theorem pipeline_resolves_every_match
        (k1 k2 : list KeyPoint) (qs ts : descriptors) (ms : list DMatch) :
  List.length k1 = List.length qs ->
  List.length k2 = List.length ts ->
  calculate_matches (Some qs) (Some ts) = Ok ms ->
  exists c1 c2,
    find_matching_coordinates k1 k2 ms = Ok (c1, c2)
    /\ List.length c1 = List.length ms
    /\ List.length c2 = List.length ms.
Proof.
  intros L1 L2 H.
  rewrite find_matching_coordinates_filter.
  assert (Hr : Forall (fun m => in_range k1 (queryIdx m)
                                /\ in_range k2 (trainIdx m)) ms).
  { pose proof (cross_check_from_mutual qs ts qs 0) as Hmut.
    apply calculate_matches_raw in H. subst ms.
    eapply Permutation_Forall; [apply sorted_by_distance_perm | ].
    eapply Forall_impl; [ | exact Hmut].
    cbn beta. unfold in_range. rewrite L1, L2.
    intros m [H1 [H2 _]]. split; [lia | exact H2]. }
  eexists. eexists. split; [reflexivity | ].
  rewrite !length_map. split; apply resolved_pairs_complete; exact Hr.
Qed.

Lemma pipeline_resolves_every_match_witness :
  exists c1 c2,
    find_matching_coordinates
      [mk_KeyPoint (zero, zero); mk_KeyPoint (f10, zero)]
      [mk_KeyPoint (f3, f4); mk_KeyPoint (of_Z 13, f4)]
      (sorted_by_distance
         (cross_check_from [[x0f%byte; x00%byte]; [xf0%byte; xff%byte]]
                           [[x0f%byte; x01%byte]; [xf0%byte; xfe%byte]] 0
                           [[x0f%byte; x00%byte]; [xf0%byte; xff%byte]]))
    = Ok (c1, c2)
    /\ List.length c1 = 2%nat
    /\ List.length c2 = 2%nat.
Proof.
  apply (pipeline_resolves_every_match
           [mk_KeyPoint (zero, zero); mk_KeyPoint (f10, zero)]
           [mk_KeyPoint (f3, f4); mk_KeyPoint (of_Z 13, f4)]
           [[x0f%byte; x00%byte]; [xf0%byte; xff%byte]]
           [[x0f%byte; x01%byte]; [xf0%byte; xfe%byte]] _
           eq_refl eq_refl eq_refl).
Defined.

(** ** Signs of rounded results *)

Lemma binary_round_aux_sign (sx : bool) (m e : Z) (l : location) :
  match binary_round_aux prec emax sx m e l with
  | S754_zero s | S754_infinity s | S754_finite s _ _ => s = sx
  | S754_nan => True
  end.
Proof.
  unfold binary_round_aux.
  destruct (shr_fexp prec emax m e l) as [mrs1 e1].
  destruct (shr_fexp prec emax
              (round_nearest_even (shr_m mrs1) (loc_of_shr_record mrs1))
              e1 loc_Exact) as [mrs2 e2].
  destruct (shr_m mrs2); [reflexivity | | exact I].
  destruct (e2 <=? emax - prec); reflexivity.
Qed.

Lemma binary_round_aux_not_negative (m e : Z) (l : location) :
  not_negative (binary_round_aux prec emax false m e l) = true.
Proof.
  pose proof (binary_round_aux_sign false m e l) as H.
  destruct (binary_round_aux prec emax false m e l); subst; reflexivity.
Qed.

Lemma not_negative_ltb (x : float) : not_negative x = true -> ltb x zero = false.
Proof.
  destruct x as [s | s | | s m e]; try reflexivity;
    destruct s; try reflexivity; discriminate.
Qed.

Lemma of_Z_pos_shape (p : positive) :
  (exists m e, of_Z (Zpos p) = S754_finite false m e)
  \/ of_Z (Zpos p) = S754_infinity false.
Proof.
  pose proof (of_Z_pos_nonzero p) as Hn.
  assert (Hs : not_negative (of_Z (Zpos p)) = true).
  { unfold of_Z, binary_normalize, binary_round.
    destruct (shl_align p 0 (fexp prec emax (Zpos (digits2_pos p) + 0)))
      as [mz ez].
    apply binary_round_aux_not_negative. }
  destruct (of_Z (Zpos p)) as [s | s | | s m e]; try discriminate Hn.
  - destruct s; [discriminate Hs | right; reflexivity].
  - destruct s; [discriminate Hs | left; eauto].
Qed.

Lemma sub_diag (x : float) : is_finite x = true -> sub x x = zero.
Proof.
  destruct x as [s | s | | s m e]; try discriminate; intros _.
  - destruct s; reflexivity.
  - unfold sub, SFsub. rewrite Z.sub_diag. reflexivity.
Qed.

Lemma hypot_not_negative (x y : float) : not_negative (hypot x y) = true.
Proof.
  assert (Hsqrt : forall s e,
             not_negative (SFsqrt prec emax (S754_finite false s e)) = true).
  { intros s e. unfold SFsqrt.
    destruct (SFsqrt_core_binary prec emax (Zpos s) e) as [[mz ez] lz].
    apply binary_round_aux_not_negative. }
  unfold hypot.
  destruct x as [sx | sx | | sx mx ex]; destruct y as [sy | sy | | sy my ey];
    try reflexivity;
    match goal with
    | |- context [match ?n with Z0 => _ | Zpos _ => _ | Zneg _ => _ end] =>
        destruct n; try reflexivity; apply Hsqrt
    end.
Qed.

Lemma add_not_negative (x y : float) :
  not_negative x = true -> not_negative y = true ->
  not_negative (add x y) = true.
Proof.
  destruct x as [sx | sx | | sx mx ex]; destruct y as [sy | sy | | sy my ey];
    intros Hx Hy; try reflexivity; try exact Hx; try exact Hy;
    try (destruct sx; destruct sy; try discriminate; reflexivity).
  destruct sx; [discriminate Hx | ]. destruct sy; [discriminate Hy | ].
  unfold add, SFadd. cbn [cond_Zopp Z.add binary_normalize].
  unfold binary_round.
  destruct (shl_align _ _ _) as [mz ez].
  apply binary_round_aux_not_negative.
Qed.

Lemma div_of_Z_not_negative (x : float) (p : positive) :
  not_negative x = true -> not_negative (div x (of_Z (Zpos p))) = true.
Proof.
  intros Hx.
  destruct (of_Z_pos_shape p) as [[m [e ->]] | ->];
    destruct x as [sx | sx | | sx mx ex]; try reflexivity;
    try (destruct sx; try discriminate Hx; reflexivity).
  destruct sx; [discriminate Hx | ].
  unfold div, SFdiv.
  destruct (SFdiv_core_binary prec emax (Zpos mx) ex (Zpos m) e) as [[mz ez] lz].
  apply binary_round_aux_not_negative.
Qed.

Lemma fold_left_add_not_negative (l : list float) :
  forall acc,
    not_negative acc = true ->
    Forall (fun x => not_negative x = true) l ->
    not_negative (fold_left add l acc) = true.
Proof.
  induction l as [ | x l IH]; intros acc Hacc Hl; cbn [fold_left].
  - exact Hacc.
  - inversion Hl; subst. apply IH; [ | assumption].
    apply add_not_negative; assumption.
Qed.

(** ** More on the mean displacement *)

Lemma calculate_mean_distance_sign (c1 c2 : list coord) :
  exists r, calculate_mean_distance c1 c2 = Ok r /\ not_negative r = true.
Proof.
  unfold calculate_mean_distance.
  destruct (is_empty c1 || is_empty c2 || lengths_differ c1 c2) eqn:G.
  - exists zero. split; reflexivity.
  - destruct c1 as [ | p c1]; [discriminate G | ].
    rewrite truediv_int_pos by (cbn [List.length]; lia).
    eexists. split; [reflexivity | ].
    replace (Z.of_nat (List.length (p :: c1)))
      with (Zpos (Pos.of_succ_nat (List.length c1)))
      by (cbn [List.length]; lia).
    apply div_of_Z_not_negative.
    rewrite total_distance_sum. unfold sum.
    apply fold_left_add_not_negative; [reflexivity | ].
    apply Forall_map. apply Forall_forall.
    intros [[x1 y1] [x2 y2]] _. apply hypot_not_negative.
Qed.

(** The mean displacement is never below zero. *)
Theorem calculate_mean_distance_not_negative (c1 c2 : list coord) :
  exists r, calculate_mean_distance c1 c2 = Ok r /\ ltb r zero = false.
Proof.
  destruct (calculate_mean_distance_sign c1 c2) as [r [E Hr]].
  exists r. split; [exact E | apply not_negative_ltb; exact Hr].
Qed.

(** Two equal lists of finite coordinates are at mean distance [0.0]. *)
Theorem calculate_mean_distance_identical (c : list coord) :
  Forall (fun p => is_finite (fst p) = true /\ is_finite (snd p) = true) c ->
  calculate_mean_distance c c = Ok zero.
Proof.
  intros Hc. unfold calculate_mean_distance, lengths_differ.
  rewrite Nat.eqb_refl. cbn [negb]. rewrite orb_false_r, orb_diag.
  destruct c as [ | p c]; [reflexivity | ].
  cbn [is_empty].
  rewrite truediv_int_pos by (cbn [List.length]; lia).
  assert (Ht : forall (l : list coord) (acc : float),
             Forall (fun p => is_finite (fst p) = true
                              /\ is_finite (snd p) = true) l ->
             acc = zero ->
             fold_left (fun total q => add total (pair_distance q))
                       (combine l l) acc = zero).
  { induction l as [ | [x y] l IH]; intros acc Hl ->; cbn [combine fold_left].
    - reflexivity.
    - inversion Hl as [ | q l' [Hx Hy] Hl']; subst. cbn [fst snd] in Hx, Hy.
      apply IH; [exact Hl' | ].
      unfold pair_distance. rewrite (sub_diag x Hx), (sub_diag y Hy).
      reflexivity. }
  unfold total_distance. rewrite (Ht (p :: c) zero Hc eq_refl).
  replace (Z.of_nat (List.length (p :: c)))
    with (Zpos (Pos.of_succ_nat (List.length c)))
    by (cbn [List.length]; lia).
  destruct (of_Z_pos_shape (Pos.of_succ_nat (List.length c)))
    as [[m [e ->]] | ->]; reflexivity.
Qed.

Lemma calculate_mean_distance_identical_witness :
  calculate_mean_distance [(f3, f4); (zero, f10)] [(f3, f4); (zero, f10)]
  = Ok zero.
Proof.
  apply (calculate_mean_distance_identical [(f3, f4); (zero, f10)]).
  repeat constructor.
Defined.

Lemma abs_binary_round (sx : bool) (m : positive) (e : Z) :
  abs (binary_round prec emax sx m e) = binary_round prec emax false m e.
Proof.
  unfold binary_round.
  destruct (shl_align m e (fexp prec emax (Zpos (digits2_pos m) + e)))
    as [mz ez].
  apply abs_binary_round_aux.
Qed.

Lemma abs_binary_normalize_opp (n e : Z) :
  abs (binary_normalize prec emax (- n) e false)
  = abs (binary_normalize prec emax n e false).
Proof.
  destruct n as [ | p | p]; cbn [Z.opp binary_normalize].
  - reflexivity.
  - rewrite !abs_binary_round. reflexivity.
  - rewrite !abs_binary_round. reflexivity.
Qed.

Lemma abs_sub_comm (x y : float) : abs (sub x y) = abs (sub y x).
Proof.
  destruct x as [sx | sx | | sx mx ex]; destruct y as [sy | sy | | sy my ey];
    try reflexivity;
    try (destruct sx; destruct sy; reflexivity).
  unfold sub, SFsub. rewrite (Z.min_comm ey ex).
  rewrite <- abs_binary_normalize_opp. f_equal. f_equal. lia.
Qed.

Lemma hypot_abs (x y : float) : hypot x y = hypot (abs x) (abs y).
Proof.
  destruct x as [sx | sx | | sx mx ex]; destruct y as [sy | sy | | sy my ey];
    reflexivity.
Qed.

Lemma pair_distance_swap (a b : coord) :
  pair_distance (a, b) = pair_distance (b, a).
Proof.
  destruct a as [x1 y1]. destruct b as [x2 y2]. unfold pair_distance.
  rewrite (hypot_abs (sub x1 x2)), (hypot_abs (sub x2 x1)).
  rewrite (abs_sub_comm x1 x2), (abs_sub_comm y1 y2). reflexivity.
Qed.

Lemma total_distance_swap (c1 : list coord) :
  forall (c2 : list coord) (acc : float),
    fold_left (fun total p => add total (pair_distance p)) (combine c1 c2) acc
    = fold_left (fun total p => add total (pair_distance p)) (combine c2 c1) acc.
Proof.
  induction c1 as [ | a c1 IH]; intros [ | b c2] acc; cbn [combine fold_left];
    try reflexivity.
  rewrite (pair_distance_swap a b). apply IH.
Qed.

(** The mean displacement does not depend on which picture comes first. *)
Theorem calculate_mean_distance_symmetric (c1 c2 : list coord) :
  calculate_mean_distance c1 c2 = calculate_mean_distance c2 c1.
Proof.
  unfold calculate_mean_distance, lengths_differ, total_distance.
  rewrite (total_distance_swap c1 c2).
  rewrite (Nat.eqb_sym (List.length c2) (List.length c1)).
  rewrite (orb_comm (is_empty c1) (is_empty c2)).
  destruct (Nat.eqb (List.length c1) (List.length c2)) eqn:E.
  - apply Nat.eqb_eq in E. rewrite E. reflexivity.
  - cbn [negb]. rewrite !orb_true_r. reflexivity.
Qed.

(** ** More on the sampling loop *)

Lemma cycle_body_counter (w : World) (i : Z) :
  i <= fst (cycle_body w i) <= i + 2
  /\ (returns (snd (cycle_body w i)) -> fst (cycle_body w i) = i + 2).
Proof.
  unfold cycle_body, returns.
  destruct (take_photo w (image_name i)) as [image_1 | e1]; cbn [fst snd].
  - destruct (take_photo w (image_name (i + 1))) as [image_2 | e2]; cbn [fst snd].
    + split; [lia | intros _; lia].
    + split; [lia | intros [v H]; discriminate H].
  - split; [lia | intros [v H]; discriminate H].
Qed.

Lemma iteration_step (w : World) (st : loop_state) :
  exists added,
    speeds (iteration w st) = (speeds st ++ added)%list
    /\ counter st <= counter (iteration w st)
    /\ 2 * Z.of_nat (List.length added) <= counter (iteration w st) - counter st
    /\ now_time (iteration w st) = now w (clock st)
    /\ clock (iteration w st) = S (clock st).
Proof.
  pose proof (cycle_body_counter w (counter st)) as [Hc Hok].
  unfold iteration. unfold returns in Hok.
  destruct (cycle_body w (counter st)) as [i [v | e]]; cbn [fst snd] in *.
  - exists [v]. cbn [counter speeds now_time clock List.length].
    specialize (Hok (ex_intro _ v eq_refl)).
    repeat apply conj; try reflexivity; lia.
  - exists []. cbn [counter speeds now_time clock List.length].
    rewrite app_nil_r. repeat apply conj; try reflexivity; lia.
Qed.

(** When the sampling loop ends, the clock is past the deadline; the speeds
    collected before are still there, in their order, followed by the new
    ones; and every new speed took two new pictures. *)
Theorem sampling_loop_exit (w : World) (start_time : datetime) (fuel : nat) :
  forall st st',
    sampling_loop w start_time fuel st = Some st' ->
    before_deadline (now_time st') start_time five_minutes = false
    /\ exists added,
        speeds st' = (speeds st ++ added)%list
        /\ 2 * Z.of_nat (List.length added) <= counter st' - counter st.
Proof.
  induction fuel as [ | fuel IH]; intros st st' H; cbn [sampling_loop] in H.
  - destruct (before_deadline (now_time st) start_time five_minutes) eqn:B;
      [discriminate H | ].
    inversion H; subst. split; [exact B | ].
    exists []. rewrite app_nil_r. cbn [List.length]. split; [reflexivity | lia].
  - destruct (before_deadline (now_time st) start_time five_minutes) eqn:B.
    + destruct (IH _ _ H) as [Hd [added' [Hs Hc]]].
      destruct (iteration_step w st) as [added [Es [_ [Ec _]]]].
      split; [exact Hd | ].
      exists (added ++ added')%list.
      rewrite Hs, Es, app_assoc. split; [reflexivity | ].
      rewrite length_app. lia.
    + inversion H; subst. split; [exact B | ].
      exists []. rewrite app_nil_r. cbn [List.length]. split; [reflexivity | lia].
Qed.

Lemma sampling_loop_exit_witness :
  exists st',
    sampling_loop demo_world (now demo_world 0%nat) 4 (initial_state demo_world)
    = Some st'
    /\ before_deadline (now_time st') (now demo_world 0%nat) five_minutes = false.
Proof.
  eexists. split; [vm_compute; reflexivity | ].
  apply (sampling_loop_exit demo_world (now demo_world 0%nat) 4
                            (initial_state demo_world)).
  vm_compute. reflexivity.
Defined.




(** The session result is the integer [0] exactly when no speed was
    collected; with at least one speed it is a float. *)
Theorem session_result_zero_iff (speeds : list float) :
  (session_result speeds = Ok (Int 0) <-> speeds = [])
  /\ (speeds <> [] -> exists x, session_result speeds = Ok (Float x)).
Proof.
  assert (Hf : speeds <> [] -> exists x, session_result speeds = Ok (Float x)).
  { intros Hne. unfold session_result.
    rewrite (average_speed_mean speeds Hne). cbn [bind round_number].
    eexists. reflexivity. }
  split; [ | exact Hf]. split.
  - intros H. destruct speeds as [ | x speeds]; [reflexivity | ].
    destruct Hf as [y Hy]; [discriminate | ].
    rewrite Hy in H. discriminate H.
  - intros ->. reflexivity.
Qed.

Lemma session_result_zero_iff_witness :
  exists x, session_result [f1; f2] = Ok (Float x).
Proof.
  apply (proj2 (session_result_zero_iff [f1; f2])). discriminate.
Defined.

(** ** Pictures without features, pictures without matches *)

Lemma shr_fexp_nonneg (m e : Z) (l : location) :
  0 <= m -> 0 <= shr_m (fst (shr_fexp prec emax m e l)).
Proof.
  intros Hm. destruct (shr_fexp_m m e l Hm) as [-> _].
  apply Z.div_pos; [exact Hm | ].
  apply Z.pow_pos_nonneg; lia.
Qed.

Lemma binary_round_aux_not_nan (sx : bool) (m e : Z) (l : location) :
  0 <= m -> binary_round_aux prec emax sx m e l <> S754_nan.
Proof.
  intros Hm. unfold binary_round_aux.
  pose proof (shr_fexp_nonneg m e l Hm) as H1.
  destruct (shr_fexp prec emax m e l) as [mrs1 e1]. cbn [fst] in H1.
  pose proof (round_nearest_even_ge (shr_m mrs1) (loc_of_shr_record mrs1)) as Hr.
  assert (H2 : 0 <= round_nearest_even (shr_m mrs1) (loc_of_shr_record mrs1))
    by lia.
  pose proof (shr_fexp_nonneg _ e1 loc_Exact H2) as H3.
  destruct (shr_fexp prec emax
              (round_nearest_even (shr_m mrs1) (loc_of_shr_record mrs1))
              e1 loc_Exact) as [mrs2 e2]. cbn [fst] in H3.
  destruct (shr_m mrs2); [discriminate | | lia].
  destruct (e2 <=? emax - prec); discriminate.
Qed.

Lemma of_ratio_not_nan (n : Z) (d : positive) : of_ratio n d <> S754_nan.
Proof.
  assert (H : forall s p,
             div (S754_finite s p 0) (S754_finite false d 0) <> S754_nan).
  { intros s p. unfold div, SFdiv, SFdiv_core_binary.
    set (m' := match _ - _ with Z0 => _ | Zpos _ => _ | Zneg _ => _ end).
    assert (Hm' : 0 <= m').
    { subst m'.
      destruct (0 - 0 - _) as [ | s' | s']; try lia.
      apply Z.shiftl_nonneg. lia. }
    pose proof (Z.div_pos m' (Zpos d) Hm' ltac:(lia)) as Hq.
    unfold Z.div in Hq.
    destruct (Z.div_eucl m' (Zpos d)) as [q r].
    apply binary_round_aux_not_nan. exact Hq. }
  destruct n as [ | p | p]; cbn [of_ratio]; [discriminate | apply H | apply H].
Qed.

Lemma get_time_difference_shape (w : World) (a b : string) (td : float) :
  get_time_difference w a b = Ok td ->
  not_negative td = true /\ td <> S754_nan.
Proof.
  unfold get_time_difference.
  destruct (get_time w a) as [ta | ]; cbn [bind]; [ | discriminate].
  destruct (get_time w b) as [tb | ]; cbn [bind]; [ | discriminate].
  intros H. inversion H; subst td; clear H.
  unfold total_seconds. rewrite abs_of_ratio.
  split; [ | apply of_ratio_not_nan].
  pose proof (Z.abs_nonneg (timedelta_us (datetime_sub tb ta))) as Hn.
  destruct (Z.abs (timedelta_us (datetime_sub tb ta))) as [ | p | p];
    cbn [of_ratio]; try lia; [reflexivity | ].
  destruct (div_finite false p 1000000) as [m [e [l Hd]]].
  rewrite Hd. apply binary_round_aux_not_negative.
Qed.

(** A picture in which the detector finds no features, so that it answers
    no descriptors, gives no speed: once the times are read and the
    pictures loaded, the cycle fails in [calculate_matches]. *)
Theorem featureless_picture_is_skipped
        (w : World) (a b : string) (td : float) (cv1 cv2 : ndarray)
        (k1 k2 : list KeyPoint) (d1 d2 : option descriptors) :
  get_time_difference w a b = Ok td ->
  convert_to_cv w a b = Ok (cv1, cv2) ->
  detectAndCompute w 1000 cv1 = Ok (k1, d1) ->
  detectAndCompute w 1000 cv2 = Ok (k2, d2) ->
  d1 = None \/ d2 = None ->
  measure w a b = Raise (ValueError "Descriptors cannot be None for matching.").
Proof.
  intros H1 H2 H3 H4 Hd. unfold measure, calculate_features.
  rewrite H1; cbn [bind]. rewrite H2; cbn [bind].
  rewrite H3; cbn [bind]. rewrite H4; cbn [bind].
  destruct Hd as [-> | ->]; [ | destruct d1]; reflexivity.
Qed.

Lemma featureless_picture_is_skipped_witness :
  measure dark_world "image1.jpg" "image2.jpg"
  = Raise (ValueError "Descriptors cannot be None for matching.").
Proof.
  apply (featureless_picture_is_skipped
           dark_world "image1.jpg" "image2.jpg" (of_Z 9)
           [[x00%byte]] [[x01%byte]] [] [] None None).
  - vm_compute. reflexivity.
  - reflexivity.
  - reflexivity.
  - reflexivity.
  - left. reflexivity.
Defined.

(** Two pictures taken at different times between which no feature is
    matched give the speed [0.0], which is collected like any other
    speed. *)
Theorem no_match_is_zero_speed
        (w : World) (a b : string) (td : float) (cv1 cv2 : ndarray)
        (k1 k2 : list KeyPoint) (d1 d2 : option descriptors) :
  get_time_difference w a b = Ok td ->
  eqb td zero = false ->
  convert_to_cv w a b = Ok (cv1, cv2) ->
  calculate_features w cv1 cv2 1000 = Ok (k1, k2, d1, d2) ->
  calculate_matches d1 d2 = Ok [] ->
  measure w a b = Ok zero.
Proof.
  intros H1 Hz H2 H3 H4. unfold measure.
  rewrite H1; cbn [bind]. rewrite H2; cbn [bind]. rewrite H3; cbn [bind].
  rewrite H4; cbn [bind].
  destruct (get_time_difference_shape w a b td H1) as [Hn Hnan].
  unfold calculate_speed_in_kmps. rewrite Hz.
  destruct td as [s | s | | s m e]; try discriminate Hz;
    try (elim Hnan; reflexivity);
    destruct s; try discriminate Hn; reflexivity.
Qed.

Lemma no_match_is_zero_speed_witness :
  measure flat_world "image1.jpg" "image2.jpg" = Ok zero.
Proof.
  apply (no_match_is_zero_speed
           flat_world "image1.jpg" "image2.jpg" (of_Z 9)
           [[x00%byte]] [[x01%byte]] [] [] (Some []) (Some [])).
  - vm_compute. reflexivity.
  - vm_compute. reflexivity.
  - reflexivity.
  - reflexivity.
  - reflexivity.
Defined.

(** ** Picture files *)

Lemma to_int_proper (z : Z) :
  Z.to_int z <> Decimal.Pos Decimal.Nil /\ Z.to_int z <> Decimal.Neg Decimal.Nil.
Proof.
  destruct z as [ | p | p]; cbn [Z.to_int]; split; try discriminate;
    intros H; inversion H as [Hp];
    exact (DecimalPos.Unsigned.to_uint_nonnil p Hp).
Qed.

Lemma string_of_int_inj (i j : Z) :
  NilZero.string_of_int (Z.to_int i) = NilZero.string_of_int (Z.to_int j) ->
  i = j.
Proof.
  intros H.
  destruct (to_int_proper i) as [Hi1 Hi2].
  destruct (to_int_proper j) as [Hj1 Hj2].
  pose proof (NilZero.isi _ Hi1 Hi2) as Ei.
  pose proof (NilZero.isi _ Hj1 Hj2) as Ej.
  rewrite H, Ej in Ei. inversion Ei as [E].
  rewrite <- (DecimalZ.of_to i), <- (DecimalZ.of_to j), E. reflexivity.
Qed.

Lemma append_length (s t : string) :
  String.length (s ++ t) = (String.length s + String.length t)%nat.
Proof.
  induction s as [ | c s IH]; cbn [append String.length].
  - reflexivity.
  - rewrite IH. reflexivity.
Qed.

Lemma append_inv_tail (t : string) :
  forall s1 s2 : string, (s1 ++ t = s2 ++ t)%string -> s1 = s2.
Proof.
  induction s1 as [ | c1 s1 IH]; intros [ | c2 s2] H; cbn [append] in H.
  - reflexivity.
  - apply (f_equal String.length) in H. cbn [String.length] in H.
    rewrite append_length in H. lia.
  - apply (f_equal String.length) in H. cbn [String.length] in H.
    rewrite append_length in H. lia.
  - inversion H as [[Hc Hs]]. f_equal. apply IH. exact Hs.
Qed.

(** Pictures with different numbers go to different files, and the picture
    counter never goes back, so a capture never overwrites the file of an
    earlier cycle. *)
Theorem image_name_injective :
  (forall i j, image_name i = image_name j -> i = j)
  /\ (forall w st, counter st <= counter (iteration w st) <= counter st + 2).
Proof.
  split.
  - intros i j H. unfold image_name in H. cbn [append] in H.
    inversion H as [H']. apply append_inv_tail in H'.
    apply string_of_int_inj. exact H'.
  - intros w st. pose proof (cycle_body_counter w (counter st)) as [Hc _].
    unfold iteration.
    destruct (cycle_body w (counter st)) as [i outcome]. exact Hc.
Qed.

(** ** No negative speed *)

Lemma mul_GSD_not_negative (x : float) :
  not_negative x = true -> not_negative (mul x GSD) = true.
Proof.
  intros Hx. destruct x as [s | s | | s m e]; try reflexivity;
    try (destruct s; try discriminate Hx; reflexivity).
  destruct s; [discriminate Hx | ].
  unfold mul, GSD. cbn [of_ratio].
  destruct (div (S754_finite false 24451525 0) (S754_finite false 1000 0))
    as [sg | sg | | sg mg eg] eqn:E; try (vm_compute in E; discriminate E).
  assert (sg = false) by (vm_compute in E; inversion E; reflexivity). subst sg.
  cbn [SFmul xorb]. apply binary_round_aux_not_negative.
Qed.

Lemma div_not_negative (x y : float) :
  not_negative x = true -> not_negative y = true ->
  is_nonzero_number y = true ->
  not_negative (div x y) = true.
Proof.
  intros Hx Hy Hn.
  destruct x as [sx | sx | | sx mx ex]; destruct y as [sy | sy | | sy my ey];
    try reflexivity;
    try (destruct sx; destruct sy; try discriminate; reflexivity).
  destruct sx; [discriminate Hx | ]. destruct sy; [discriminate Hy | ].
  unfold div, SFdiv.
  destruct (SFdiv_core_binary prec emax (Zpos mx) ex (Zpos my) ey) as [[mz ez] lz].
  apply binary_round_aux_not_negative.
Qed.

Lemma round_not_negative (x : float) (ndigits : Z) :
  not_negative x = true -> not_negative (round x ndigits) = true.
Proof.
  intros Hx. destruct x as [s | s | | s m e]; try exact Hx.
  destruct s; [discriminate Hx | ]. unfold round.
  destruct (if 0 <=? e then Zpos m * 2 ^ e * 10 ^ ndigits
            else round_half_even (Zpos m * 10 ^ ndigits) (2 ^ (- e)))
    as [ | p | p]; try reflexivity.
  unfold div, SFdiv.
  destruct (SFdiv_core_binary prec emax (Zpos p) 0
                              (Zpos (Z.to_pos (10 ^ ndigits))) 0)
    as [[mz ez] lz].
  apply binary_round_aux_not_negative.
Qed.

Lemma measure_not_negative (w : World) (a b : string) (v : float) :
  measure w a b = Ok v -> not_negative v = true.
Proof.
  intros H. apply measure_ok in H.
  destruct H as (td & cv1 & cv2 & k1 & k2 & d1 & d2 & ms & c1 & c2 & avg
                 & H1 & _ & _ & _ & _ & H6 & H7).
  destruct (get_time_difference_shape w a b td H1) as [Htd Hnan].
  destruct (calculate_mean_distance_sign c1 c2) as [r [Er Hr]].
  rewrite H6 in Er. inversion Er; subst r; clear Er.
  unfold calculate_speed_in_kmps in H7.
  destruct (eqb td zero) eqn:Ez; [discriminate H7 | ].
  inversion H7; subst v; clear H7.
  apply div_not_negative.
  - change f100000 with (of_Z (Zpos 100000)).
    apply div_of_Z_not_negative. apply mul_GSD_not_negative. exact Hr.
  - exact Htd.
  - destruct td as [s | s | | s m e]; try reflexivity.
    + destruct s; discriminate Ez.
    + elim Hnan. reflexivity.
Qed.

Lemma iteration_not_negative (w : World) (st : loop_state) :
  Forall (fun v => not_negative v = true) (speeds st) ->
  Forall (fun v => not_negative v = true) (speeds (iteration w st)).
Proof.
  intros H. rewrite iteration_speeds.
  destruct (snd (cycle_body w (counter st))) as [v | e] eqn:E; [ | exact H].
  apply Forall_app. split; [exact H | ].
  constructor; [ | constructor].
  unfold cycle_body in E.
  destruct (take_photo w (image_name (counter st))) as [image_1 | ];
    [ | discriminate E].
  destruct (take_photo w (image_name (counter st + 1))) as [image_2 | ];
    [ | discriminate E].
  cbn [snd] in E. eapply measure_not_negative. exact E.
Qed.

Lemma sampling_loop_not_negative (w : World) (start_time : datetime) (fuel : nat) :
  forall st st',
    Forall (fun v => not_negative v = true) (speeds st) ->
    sampling_loop w start_time fuel st = Some st' ->
    Forall (fun v => not_negative v = true) (speeds st').
Proof.
  induction fuel as [ | fuel IH]; intros st st' Hst H; cbn [sampling_loop] in H;
    destruct (before_deadline (now_time st) start_time five_minutes);
    try discriminate H; try (inversion H; subst; exact Hst).
  eapply IH; [ | exact H]. apply iteration_not_negative. exact Hst.
Qed.

(** The program never reports a negative speed: no speed that a cycle
    contributes is below zero, and neither is the session result. *)
Theorem main_not_negative (w : World) (fuel : nat) (n : number) :
  main w fuel = Some (Ok n) ->
  match n with
  | Int k => k = 0
  | Float x => ltb x zero = false
  end.
Proof.
  unfold main. intros H.
  destruct (sampling_loop w (now w 0%nat) fuel (initial_state w))
    as [st | ] eqn:E; [ | discriminate H].
  assert (Hs : Forall (fun v => not_negative v = true) (speeds st)).
  { eapply sampling_loop_not_negative; [ | exact E]. constructor. }
  inversion H as [H']. clear H. unfold session_result in H'.
  destruct (speeds st) as [ | x l] eqn:El.
  - cbn in H'. inversion H'. reflexivity.
  - rewrite average_speed_mean in H' by discriminate.
    cbn [bind round_number] in H'. inversion H'; subst n; clear H'.
    apply not_negative_ltb. apply round_not_negative.
    replace (Z.of_nat (List.length (x :: l)))
      with (Zpos (Pos.of_succ_nat (List.length l)))
      by (cbn [List.length]; lia).
    apply div_of_Z_not_negative. unfold sum.
    apply fold_left_add_not_negative; [reflexivity | exact Hs].
Qed.

Lemma main_not_negative_witness :
  exists x, main demo_world 4 = Some (Ok (Float x)) /\ ltb x zero = false.
Proof.
  eexists. split; [vm_compute; reflexivity | ].
  apply (main_not_negative demo_world 4 (Float _)).
  vm_compute. reflexivity.
Defined.
